(** * train_speechT5.py: the batch collator and the dataset preparation

    A shallow embedding of [CustomDataCollator.__call__], [load_audio] and
    [prepare_dataset] of [src/train_speechT5.py], and the properties of the
    collation logic: padding of token sequences, the fixed frame budget of
    the log-mel spectrograms, the failure on an empty batch, and the skipping
    of audio files that cannot be loaded.

    Python lists are Rocq lists, Python ints that are token ids are [Z],
    lengths and counts are [nat].  Floating point samples are kept abstract
    (class [Numeric]); third-party functions (librosa's kernels, the
    tokenizer, the file system) are parameters of the development (class
    [World]), while the framing of the spectrogram, which fixes the shapes,
    is written out.  The collator is given twice: as a function of values
    ([call]) and on a store of shared Python objects ([call_store]); the
    second is proved to compute the first. *)

From Stdlib Require Import ZArith Lia.
From Stdlib Require QArith.
From stdpp Require Import base option list strings.

Open Scope nat_scope.

(** ** Python exceptions and fallible computations *)

Inductive exn :=
| ValueError (msg : string)
| ParameterError (msg : string)      (* librosa.util.exceptions.ParameterError *)
| OtherException (msg : string).

Inductive Result (A : Type) :=
| Ok (a : A)
| Raise (e : exn).
Arguments Ok {A} a.
Arguments Raise {A} e.

#[global] Instance Result_ret : MRet Result := fun A a => Ok a.
#[global] Instance Result_bind : MBind Result := fun A B f m =>
  match m with
  | Ok a => f a
  | Raise e => Raise e
  end.

Definition is_Ok {A} (r : Result A) : bool :=
  match r with Ok _ => true | Raise _ => false end.

(** A [for x in xs: s = body(s, x)] loop whose body may raise. *)
Fixpoint for_loop {A St : Type} (body : St -> A -> Result St) (xs : list A) (s : St)
  : Result St :=
  match xs with
  | [] => Ok s
  | x :: rest => s' ← body s x; for_loop body rest s'
  end.

(** ** Numeric data *)

Inductive PadMode := PadConstant | PadReflect.

(** The keyword arguments of [librosa.feature.melspectrogram]. *)
Record MelParams := {
  sr : Z;
  n_mels : nat;
  n_fft : nat;
  hop_length : nat;
  win_length : nat;
  center : bool;
  pad_mode : PadMode
}.

(** The floating point numbers of the program and the third-party numeric
    kernels that work on them.  [mel_energy p m frame] is the energy in mel
    band [m] of one analysis frame (window, FFT, squared magnitude and mel
    filter bank of librosa); [normalize] is [librosa.util.normalize], which
    raises on non-finite input only, and [librosa.load] returns finite
    samples: it is a total function here. *)
Class Numeric := {
  sample : Type;
  zero : sample;                              (* 0.0 *)
  fmaximum : sample -> sample -> sample;      (* np.maximum *)
  fsub : sample -> sample -> sample;          (* a - b *)
  ten_log10 : sample -> sample;               (* 10.0 * np.log10(x) *)
  amin : sample;                              (* 1e-10, default of power_to_db *)
  top_db : sample;                            (* 80.0, default of power_to_db *)
  to_float32 : sample -> sample;              (* cast of dtype=torch.float32 *)
  mel_energy : MelParams -> nat -> list sample -> sample;
  normalize : list sample -> list sample
}.

Section Arrays.
Context {Num : Numeric}.

(** A 2-D array is the list of its rows. *)
Definition matrix := list (list sample).

Definition has_shape2 {A} (r c : nat) (M : list (list A)) : Prop :=
  length M = r /\ Forall (fun row => length row = c) M.

Definition has_shape3 {A} (b r c : nat) (X : list (list (list A))) : Prop :=
  length X = b /\ Forall (has_shape2 r c) X.

(** Index read by numpy's reflect padding at offset [k] (relative to the
    start of an array of [n >= 1] elements): the array is mirrored without
    repeating its edge values, with period [2 (n - 1)]. *)
Definition reflect_index (n : nat) (k : Z) : nat :=
  if n =? 1 then 0
  else
    let p := (2 * (Z.of_nat n - 1))%Z in
    let r := (k mod p)%Z in
    Z.to_nat (if (r <? Z.of_nat n)%Z then r else (p - r)%Z).

(** [np.pad(a, (before, after), mode=...)] on a 1-D array. *)
Definition np_pad (a : list sample) (before after : nat) (mode : PadMode)
  : Result (list sample) :=
  match mode with
  | PadConstant => Ok (replicate before zero ++ a ++ replicate after zero)
  | PadReflect =>
      match a with
      | [] =>
          if before + after =? 0 then Ok []
          else Raise (ValueError "can't extend empty axis using modes other than constant")
      | _ :: _ =>
          Ok (map (fun i => nth (reflect_index (length a)
                                   (Z.of_nat i - Z.of_nat before)) a zero)
                  (seq 0 (before + length a + after)))
      end
  end.

(** The analysis frames of the short-time Fourier transform: with
    [center=True] the signal is padded by [n_fft // 2] on both sides and
    frame [t] starts at sample [t * hop_length]. *)
Definition stft_frames (p : MelParams) (y : list sample) : Result (list (list sample)) :=
  if hop_length p =? 0 then Raise (ParameterError "hop_length must be a positive integer")
  else
    y_padded ← (if center p
                then np_pad y (n_fft p / 2) (n_fft p / 2) (pad_mode p)
                else Ok y);
    if length y_padded <? n_fft p then Raise (ParameterError "input signal is too short")
    else
      Ok (map (fun t => take (n_fft p) (drop (t * hop_length p) y_padded))
              (seq 0 (1 + (length y_padded - n_fft p) / hop_length p))).

(** [librosa.feature.melspectrogram]: an array of shape (n_mels, frames). *)
Definition melspectrogram (p : MelParams) (y : list sample) : Result matrix :=
  frames ← stft_frames p y;
  Ok (map (fun m => map (mel_energy p m) frames) (seq 0 (n_mels p))).

(** [np.max] over all the entries of a 2-D array. *)
Definition np_max (P : matrix) : Result sample :=
  match concat P with
  | [] => Raise (ValueError "zero-size array to reduction operation maximum")
  | x :: rest => Ok (foldl fmaximum x rest)
  end.

(** [librosa.power_to_db(S, ref=np.max)], with the defaults [amin] and
    [top_db]: decibels relative to the largest entry of [P] itself. *)
Definition power_to_db_ref_max (P : matrix) : Result matrix :=
  ref_value ← np_max P;
  let log_spec :=
    map (map (fun x => fsub (ten_log10 (fmaximum amin x))
                            (ten_log10 (fmaximum amin ref_value)))) P in
  top ← np_max log_spec;
  Ok (map (map (fun x => fmaximum x (fsub top top_db))) log_spec).

(** [M.T]. *)
Definition transpose (M : matrix) : matrix :=
  map (fun j => map (fun row => nth j row zero) M) (seq 0 (length (hd [] M))).

(** [np.zeros((r, c))]. *)
Definition np_zeros (r c : nat) : matrix := replicate r (replicate c zero).

(** [np.concatenate([a, b], axis=0)]: the row widths must agree. *)
Definition np_concatenate0 (a b : matrix) : Result matrix :=
  match a, b with
  | ra :: _, rb :: _ =>
      if forallb (fun r => length r =? length ra) (a ++ b) then Ok (a ++ b)
      else Raise (ValueError "all the input array dimensions except for the concatenation axis must match exactly")
  | _, _ => Ok (a ++ b)
  end.

(** [np.stack(arrays)]: at least one array, all of the same shape. *)
Definition np_stack (arrays : list matrix) : Result (list matrix) :=
  match arrays with
  | [] => Raise (ValueError "need at least one array to stack")
  | a :: rest =>
      if forallb (fun b => bool_decide (map length b = map length a)) rest
      then Ok arrays
      else Raise (ValueError "all input arrays must have the same shape")
  end.

(** [torch.tensor(rows)] on a list of lists: the rows must have one length. *)
Definition torch_tensor2 {A} (rows : list (list A)) : Result (list (list A)) :=
  match rows with
  | [] => Ok []
  | r :: rest =>
      if forallb (fun r' => length r' =? length r) rest then Ok rows
      else Raise (ValueError "expected sequence of equal length")
  end.

(** [max(...)] of a sequence of lengths. *)
Definition py_max (xs : list nat) : Result nat :=
  match xs with
  | [] => Raise (ValueError "max() arg is an empty sequence")
  | x :: rest => Ok (foldl Nat.max x rest)
  end.

End Arrays.

(** ** The collator (lines 9-79) *)

Record Tokenizer := { pad_token_id : Z }.
Record Processor := { tokenizer : Tokenizer }.

Record CustomDataCollator := {
  processor : Processor;
  target_length : nat
}.

(** [CustomDataCollator(processor)]: [target_length] defaults to 512. *)
Definition default_target_length : nat := 512.
Definition CustomDataCollator_init (processor : Processor) : CustomDataCollator :=
  {| processor := processor; target_length := default_target_length |}.

Section Collator.
Context {Num : Numeric}.

(** One item of the dataset, as built by [prepare_dataset]. *)
Record Feature := {
  input_ids : list Z;
  attention_mask : list Z;
  labels : list sample;
  text : string
}.

(** The dictionary returned by the collator. *)
Record Batch := {
  batch_input_ids : list (list Z);
  batch_attention_mask : list (list Z);
  batch_labels : list matrix
}.

(** Lines 24-27, the body of the padding loop: one step appends a padded row
    to each of the two accumulators. *)
Definition pad_step (pad : Z) (max_length : nat)
    (acc : list (list Z) * list (list Z)) (im : list Z * list Z)
  : list (list Z) * list (list Z) :=
  let '(padded_input_ids, padded_attention_mask) := acc in
  let '(ids, mask) := im in
  let padding_length := max_length - length ids in
  (padded_input_ids ++ [ids ++ replicate padding_length pad],
   padded_attention_mask ++ [mask ++ replicate padding_length 0%Z]).

(** Lines 40-44: the waveform is cut or zero-padded at its end. *)
Definition fit_audio (target_length : nat) (audio : list sample) : Result (list sample) :=
  let target_audio_length := target_length * 512 in
  if target_audio_length <? length audio
  then Ok (take target_audio_length audio)
  else np_pad audio 0 (target_audio_length - length audio) PadConstant.

(** The keyword arguments of the call at lines 47-56. *)
Definition mel_params : MelParams :=
  {| sr := 16000%Z; n_mels := 80; n_fft := 2048; hop_length := 512;
     win_length := 2048; center := true; pad_mode := PadReflect |}.

(** Lines 47-61: mel spectrogram, decibels, time-major layout. *)
Definition log_mel (audio : list sample) : Result matrix :=
  mel_spec ← melspectrogram mel_params audio;
  mel_spec ← power_to_db_ref_max mel_spec;
  Ok (transpose mel_spec).

(** Lines 64-68: the frame budget. *)
Definition fit_frames (target_length : nat) (mel_spec : matrix) : Result matrix :=
  if target_length <? length mel_spec
  then Ok (take target_length mel_spec)
  else if length mel_spec <? target_length
  then
    let padding := np_zeros (target_length - length mel_spec) 80 in
    np_concatenate0 mel_spec padding
  else Ok mel_spec.

(** Lines 38-70, the body of the audio loop. *)
Definition mel_step (target_length : nat) (mel_specs : list matrix)
    (audio : list sample) : Result (list matrix) :=
  audio ← fit_audio target_length audio;
  mel_spec ← log_mel audio;
  mel_spec ← fit_frames target_length mel_spec;
  Ok (mel_specs ++ [mel_spec]).

(** [CustomDataCollator.__call__]. *)
Definition call (self : CustomDataCollator) (features : list Feature) : Result Batch :=
  let input_ids := map input_ids features in
  let attention_mask := map attention_mask features in
  max_length ← py_max (map length input_ids);
  let '(padded_input_ids, padded_attention_mask) :=
    foldl (pad_step (pad_token_id (tokenizer (processor self))) max_length)
          ([], []) (zip input_ids attention_mask) in
  input_ids_tensor ← torch_tensor2 padded_input_ids;
  attention_mask_tensor ← torch_tensor2 padded_attention_mask;
  let speech_arrays := map labels features in
  mel_specs ← for_loop (mel_step (target_length self)) speech_arrays [];
  stacked ← np_stack mel_specs;
  let speech_tensor := map (map (map to_float32)) stacked in
  Ok {| batch_input_ids := input_ids_tensor;
        batch_attention_mask := attention_mask_tensor;
        batch_labels := speech_tensor |}.

End Collator.

(** ** Loading the audio and preparing the dataset (lines 81-134) *)

(** The text side of what [processor(text=..., return_tensors="pt", ...)]
    returns for one text: two tensors of shape (1, L), each kept as its
    single row, which is what [[0].tolist()] reads. *)
Record BatchEncoding := {
  enc_input_ids : list Z;
  enc_attention_mask : list Z
}.

(** The world outside the script: the file system, the audio decoder and
    the pretrained processor. *)
Class World {Num : Numeric} := {
  os_path_join : string -> string -> string;
  os_path_exists : string -> bool;
  (* librosa.load(path, sr=..., duration=...): the samples and the rate *)
  librosa_load : string -> Z -> QArith_base.Q -> Result (list sample * Z);
  (* processor(text=..., return_tensors="pt", padding=True, max_length=...,
     truncation=True) *)
  processor_call : Processor -> string -> nat -> BatchEncoding
}.

(** What the script prints. *)
Inductive Line :=
| AudioFileDoesNotExist (full_path : string)
| LoadedAudioIsEmpty (full_path : string)
| ErrorLoadingAudio (full_path : string) (e : exn)
| ProcessingAudioFiles
| ProcessedFiles (idx : Z)
| SuccessfullyProcessed (n : nat).

(** One row of the metadata table, with its index label. *)
Record Row := {
  row_index : Z;
  Audio_Path : string;
  Text : string
}.

Section Dataset.
Context {Num : Numeric} {W : World}.

Definition default_max_duration : QArith_base.Q := QArith_base.Qmake 10 1.

(** [load_audio]: the waveform, or [None], and the lines printed. *)
Definition load_audio (file_path dataset_dir : string) (max_duration : QArith_base.Q)
  : option (list sample) * list Line :=
  let full_path := os_path_join dataset_dir file_path in
  if negb (os_path_exists full_path)
  then (None, [AudioFileDoesNotExist full_path])
  else
    match librosa_load full_path 16000%Z max_duration with
    | Ok (speech_array, sampling_rate) =>
        if 0 <? length speech_array
        then
          let speech_array := normalize speech_array in
          (Some speech_array, [])
        else (None, [LoadedAudioIsEmpty full_path])
    | Raise e => (None, [ErrorLoadingAudio full_path e])
    end.

(** Lines 106-128, the body of the loop over the rows: the state is
    [processed_data] and the output printed so far. *)
Definition prepare_step (dataset_dir : string) (processor : Processor)
    (st : list Feature * list Line) (row : Row) : list Feature * list Line :=
  let '(processed_data, out) := st in
  let '(audio, printed) := load_audio (Audio_Path row) dataset_dir default_max_duration in
  let processed_data :=
    match audio with
    | Some audio =>
        let text_inputs := processor_call processor (Text row) 256 in
        let processed_item :=
          {| input_ids := enc_input_ids text_inputs;
             attention_mask := enc_attention_mask text_inputs;
             labels := audio;
             text := Text row |} in
        processed_data ++ [processed_item]
    | None => processed_data
    end in
  let progress :=
    if (row_index row mod 100 =? 0)%Z then [ProcessedFiles (row_index row)] else [] in
  (processed_data, out ++ printed ++ progress).

(** [prepare_dataset]: the dataset ([Dataset.from_list] of the items) or the
    exception raised, and the lines printed. *)
Definition prepare_dataset (df : list Row) (dataset_dir : string) (processor : Processor)
  : Result (list Feature) * list Line :=
  let '(processed_data, out) :=
    foldl (prepare_step dataset_dir processor) ([], [ProcessingAudioFiles]) df in
  match processed_data with
  | [] => (Raise (ValueError "No data was successfully processed"), out)
  | _ :: _ => (Ok processed_data, out ++ [SuccessfullyProcessed (length processed_data)])
  end.

End Dataset.

(** ** The collator on a store of Python objects

    The same method, with the objects it is handed kept in a store: the
    features and their lists are shared with the caller, so that what the
    call writes, and where, is explicit.  Lists of ints and of floats, lists
    of references, feature dictionaries and the collator with its processor
    and tokenizer are objects; numpy arrays and tensors, which the method
    creates by copying, are values. *)

(** Locations of the store. *)
Abbreviation loc := nat (only parsing).

Section Store.
Context {Num : Numeric}.

Inductive pyobj :=
| PyInts (xs : list Z)
| PyFloats (xs : list sample)
| PyRefs (refs : list loc)
| PyFeature (ids mask labs : loc) (txt : string)
| PyTokenizer (pad : Z)
| PyProcessor (tok : loc)
| PyCollator (proc : loc) (tlen : nat).


(** A computation reads and writes the store and returns or raises. *)
Definition Py (A : Type) : Type := list pyobj -> Result A * list pyobj.

Definition py_ret {A} (a : A) : Py A := fun h => (Ok a, h).
Definition py_raise {A} (e : exn) : Py A := fun h => (Raise e, h).
Definition py_bind {A B} (m : Py A) (k : A -> Py B) : Py B := fun h =>
  match m h with
  | (Ok a, h') => k a h'
  | (Raise e, h') => (Raise e, h')
  end.
Definition py_lift {A} (r : Result A) : Py A := fun h => (r, h).

Notation "'let*' x := m 'in' k" := (py_bind m (fun x => k))
  (at level 10, x pattern, m at level 200, k at level 200).

Definition type_error {A} : Py A := py_raise (OtherException "TypeError").

(** A new object, at a fresh location. *)
Definition alloc (o : pyobj) : Py loc := fun h => (Ok (length h), h ++ [o]).

Definition load (l : loc) : Py pyobj := fun h =>
  match h !! l with
  | Some o => (Ok o, h)
  | None => (Raise (OtherException "dangling reference"), h)
  end.

Definition store (l : loc) (o : pyobj) : Py unit := fun h => (Ok tt, <[l:=o]> h).

Definition load_ints (l : loc) : Py (list Z) :=
  let* o := load l in
  match o with PyInts xs => py_ret xs | _ => type_error end.

Definition load_floats (l : loc) : Py (list sample) :=
  let* o := load l in
  match o with PyFloats xs => py_ret xs | _ => type_error end.

Definition load_refs (l : loc) : Py (list loc) :=
  let* o := load l in
  match o with PyRefs refs => py_ret refs | _ => type_error end.

(** [f["input_ids"]], [f["attention_mask"]], [f["labels"]]. *)
Definition getitem_input_ids (f : loc) : Py loc :=
  let* o := load f in
  match o with PyFeature ids _ _ _ => py_ret ids | _ => type_error end.
Definition getitem_attention_mask (f : loc) : Py loc :=
  let* o := load f in
  match o with PyFeature _ mask _ _ => py_ret mask | _ => type_error end.
Definition getitem_labels (f : loc) : Py loc :=
  let* o := load f in
  match o with PyFeature _ _ labs _ => py_ret labs | _ => type_error end.

(** [self.processor.tokenizer.pad_token_id] and [self.target_length]. *)
Definition getattr_pad_token_id (self : loc) : Py Z :=
  let* o := load self in
  match o with
  | PyCollator proc _ =>
      let* o := load proc in
      match o with
      | PyProcessor tok =>
          let* o := load tok in
          match o with PyTokenizer pad => py_ret pad | _ => type_error end
      | _ => type_error
      end
  | _ => type_error
  end.
Definition getattr_target_length (self : loc) : Py nat :=
  let* o := load self in
  match o with PyCollator _ tlen => py_ret tlen | _ => type_error end.

(** [xs.append(x)] on a list of objects: the list itself is updated. *)
Definition list_append (xs : loc) (x : loc) : Py unit :=
  let* refs := load_refs xs in
  store xs (PyRefs (refs ++ [x])).

(** [a + b] on lists of ints: a new list. *)
Definition list_add (a b : loc) : Py loc :=
  let* xs := load_ints a in
  let* ys := load_ints b in
  alloc (PyInts (xs ++ ys)).

(** [[x] * n]: a new list. *)
Definition list_repeat (x : Z) (n : nat) : Py loc := alloc (PyInts (replicate n x)).

(** [[g(x) for x in xs]] and [for x in xs: body(x)]. *)
Fixpoint py_map {A B} (g : A -> Py B) (xs : list A) : Py (list B) :=
  match xs with
  | [] => py_ret []
  | x :: rest =>
      let* y := g x in
      let* ys := py_map g rest in
      py_ret (y :: ys)
  end.

Fixpoint py_for {A} (xs : list A) (body : A -> Py unit) : Py unit :=
  match xs with
  | [] => py_ret tt
  | x :: rest => let* _ := body x in py_for rest body
  end.

(** A loop that rebinds a local variable: [for x in xs: s = body(s, x)]. *)
Fixpoint py_fold {A St} (xs : list A) (s : St) (body : St -> A -> Py St) : Py St :=
  match xs with
  | [] => py_ret s
  | x :: rest => let* s' := body s x in py_fold rest s' body
  end.

(** [torch.tensor(rows, dtype=torch.long)] on a list of lists of ints. *)
Definition torch_tensor_long (rows : loc) : Py (list (list Z)) :=
  let* refs := load_refs rows in
  let* values := py_map load_ints refs in
  py_lift (torch_tensor2 values).

(** Lines 24-27 on the store: [ids] and [mask] are the feature's own lists,
    the padded rows are new lists, appended to the two local lists. *)
Definition pad_body (self : loc) (max_length : nat)
    (padded_input_ids padded_attention_mask : loc) (im : loc * loc) : Py unit :=
  let '(ids, mask) := im in
  let* xs := load_ints ids in
  let padding_length := max_length - length xs in
  let* pad := getattr_pad_token_id self in
  let* pads := list_repeat pad padding_length in
  let* row := list_add ids pads in
  let* _ := list_append padded_input_ids row in
  let* zeros := list_repeat 0%Z padding_length in
  let* row := list_add mask zeros in
  list_append padded_attention_mask row.

(** Lines 38-70 on the store: [np.array] has copied the labels, the loop
    works on the copies and reads [self.target_length]. *)
Definition mel_body (self : loc) (mel_specs : list matrix) (audio : list sample)
  : Py (list matrix) :=
  let* target_length := getattr_target_length self in
  py_lift (mel_step target_length mel_specs audio).

(** [CustomDataCollator.__call__] on the store. *)
Definition call_store (self features : loc) : Py Batch :=
  let* fs := load_refs features in
  let* ids_refs := py_map getitem_input_ids fs in
  let* input_ids := alloc (PyRefs ids_refs) in
  let* mask_refs := py_map getitem_attention_mask fs in
  let* attention_mask := alloc (PyRefs mask_refs) in
  let* ids_refs := load_refs input_ids in
  let* lens := py_map (fun ids => let* xs := load_ints ids in py_ret (length xs)) ids_refs in
  let* max_length := py_lift (py_max lens) in
  let* padded_input_ids := alloc (PyRefs []) in
  let* padded_attention_mask := alloc (PyRefs []) in
  let* ids_refs := load_refs input_ids in
  let* mask_refs := load_refs attention_mask in
  let* _ := py_for (zip ids_refs mask_refs)
              (pad_body self max_length padded_input_ids padded_attention_mask) in
  let* input_ids_tensor := torch_tensor_long padded_input_ids in
  let* attention_mask_tensor := torch_tensor_long padded_attention_mask in
  let* speech_arrays :=
    py_map (fun f => let* labs := getitem_labels f in load_floats labs) fs in
  let* mel_specs := py_fold speech_arrays [] (mel_body self) in
  let* stacked := py_lift (np_stack mel_specs) in
  let speech_tensor := map (map (map to_float32)) stacked in
  py_ret {| batch_input_ids := input_ids_tensor;
            batch_attention_mask := attention_mask_tensor;
            batch_labels := speech_tensor |}.

(** What the store holds at a location, read as a value. *)
Definition ints_at (h : list pyobj) (l : loc) : option (list Z) :=
  match h !! l with Some (PyInts xs) => Some xs | _ => None end.
Definition floats_at (h : list pyobj) (l : loc) : option (list sample) :=
  match h !! l with Some (PyFloats xs) => Some xs | _ => None end.
Definition feature_at (h : list pyobj) (l : loc) : option Feature :=
  match h !! l with
  | Some (PyFeature ids mask labs txt) =>
      match ints_at h ids, ints_at h mask, floats_at h labs with
      | Some i, Some m, Some a =>
          Some {| input_ids := i; attention_mask := m; labels := a; text := txt |}
      | _, _, _ => None
      end
  | _ => None
  end.
Fixpoint all_at {A} (rd : loc -> option A) (ls : list loc) : option (list A) :=
  match ls with
  | [] => Some []
  | l :: rest =>
      match rd l, all_at rd rest with
      | Some a, Some r => Some (a :: r)
      | _, _ => None
      end
  end.
Definition features_at (h : list pyobj) (l : loc) : option (list Feature) :=
  match h !! l with
  | Some (PyRefs refs) => all_at (feature_at h) refs
  | _ => None
  end.
Definition collator_at (h : list pyobj) (l : loc) : option CustomDataCollator :=
  match h !! l with
  | Some (PyCollator proc tlen) =>
      match h !! proc with
      | Some (PyProcessor tok) =>
          match h !! tok with
          | Some (PyTokenizer pad) =>
              Some {| processor := {| tokenizer := {| pad_token_id := pad |} |};
                      target_length := tlen |}
          | _ => None
          end
      | _ => None
      end
  | _ => None
  end.

End Store.

(** ** Vocabulary of the statements *)

Section Vocabulary.
Context {Num : Numeric}.

(** The attention mask of a feature runs parallel to its token ids. *)
Definition aligned (f : Feature) : Prop :=
  length (attention_mask f) = length (input_ids f).

(** The rows the padding loop builds. *)
Definition padded_ids (pad : Z) (m : nat) (f : Feature) : list Z :=
  input_ids f ++ replicate (m - length (input_ids f)) pad.
Definition padded_mask (m : nat) (f : Feature) : list Z :=
  attention_mask f ++ replicate (m - length (input_ids f)) 0%Z.

(** The maximum of the lengths of the token sequences of a batch. *)
Definition is_max_length (features : list Feature) (m : nat) : Prop :=
  (forall f, f ∈ features -> length (input_ids f) <= m) /\
  (exists f, f ∈ features /\ length (input_ids f) = m).

(** What one turn of the audio loop computes for a waveform. *)
Definition clip (T : nat) (audio : list sample) (M : matrix) : Prop :=
  exists y D, fit_audio T audio = Ok y /\ log_mel y = Ok D /\ fit_frames T D = Ok M.

(** Every list of ints of [h] is still there, unchanged, in [h']. *)
Definition keeps_ints (h h' : list pyobj) : Prop :=
  forall l xs, ints_at h l = Some xs -> ints_at h' l = Some xs.


(** What holds between two turns of the padding loop: the store the call
    started from is intact, and the two local lists hold the rows [R1] and
    [R2] built so far. *)
Definition pad_inv (h0 : list pyobj) (p1 p2 : loc) (R1 R2 : list (list Z)) (h : list pyobj) : Prop :=
  h0 `prefix_of` h /\
  exists r1 r2, h !! p1 = Some (PyRefs r1) /\ h !! p2 = Some (PyRefs r2) /\
    all_at (ints_at h) r1 = Some R1 /\ all_at (ints_at h) r2 = Some R2.

(** Where a feature dictionary of the store keeps its three lists. *)
Definition ids_loc (h : list pyobj) (l : loc) : loc :=
  match h !! l with Some (PyFeature ids _ _ _) => ids | _ => 0 end.
Definition mask_loc (h : list pyobj) (l : loc) : loc :=
  match h !! l with Some (PyFeature _ mask _ _) => mask | _ => 0 end.
Definition labels_loc (h : list pyobj) (l : loc) : loc :=
  match h !! l with Some (PyFeature _ _ labs _) => labs | _ => 0 end.

(** The waveform as the spectrogram step sees it: its first
    [target_length * 512] samples, after it was extended with zeros. *)
Definition within_budget (T : nat) (audio : list sample) : list sample :=
  take (T * 512) (audio ++ replicate (T * 512 - length audio) zero).

(** Two features the collator cannot tell apart. *)
Definition same_for_collator (T : nat) (f g : Feature) : Prop :=
  input_ids f = input_ids g /\
  attention_mask f = attention_mask g /\
  within_budget T (labels f) = within_budget T (labels g).

End Vocabulary.

Section DatasetVocabulary.
Context {Num : Numeric} {W : World}.

(** The item [prepare_dataset] builds from a row, when its audio loads. *)
Definition item_of_row (dataset_dir : string) (processor : Processor) (row : Row)
  : option Feature :=
  audio ← (load_audio (Audio_Path row) dataset_dir default_max_duration).1;
  let text_inputs := processor_call processor (Text row) 256 in
  Some {| input_ids := enc_input_ids text_inputs;
          attention_mask := enc_attention_mask text_inputs;
          labels := audio;
          text := Text row |}.

(** The lines that report a row that is skipped. *)
Definition is_diagnostic (line : Line) : bool :=
  match line with
  | AudioFileDoesNotExist _ | LoadedAudioIsEmpty _ | ErrorLoadingAudio _ _ => true
  | _ => false
  end.

(** What one turn of the loop of [prepare_dataset] prints for a row. *)
Definition row_lines (dataset_dir : string) (row : Row) : list Line :=
  (load_audio (Audio_Path row) dataset_dir default_max_duration).2 ++
  (if (row_index row mod 100 =? 0)%Z then [ProcessedFiles (row_index row)] else []).

End DatasetVocabulary.

(** ** [librosa.util.normalize]

    With the defaults used at line 92 ([norm=np.inf], [threshold=None],
    [fill=None]) the library divides every sample by the largest absolute
    value of the clip, or by 1.0 when that value is below the threshold
    [tiny] (the smallest positive normal number of the dtype). *)

(** The arithmetic this takes, on the finite samples of a loaded clip. *)
Class PeakArithmetic {Num : Numeric} := {
  fabs : sample -> sample;                 (* np.abs *)
  fdiv : sample -> sample -> sample;       (* a / b *)
  flt : sample -> sample -> bool;          (* a < b *)
  one : sample;                            (* 1.0 *)
  tiny : sample                            (* np.finfo(dtype).tiny *)
}.

Section Normalize.
Context {Num : Numeric} {PA : PeakArithmetic}.

(** [np.max(np.abs(S))], the peak absolute amplitude of a non-empty clip. *)
Definition peak (S : list sample) : sample :=
  match map fabs S with
  | [] => zero
  | x :: rest => foldl fmaximum x rest
  end.

Definition librosa_normalize (S : list sample) : list sample :=
  let length := peak S in
  let length := if flt length tiny then one else length in
  map (fun s => fdiv s length) S.

(** [normalize] is that function, and the arithmetic of finite samples has
    the properties its scaling rests on: dividing by 1.0 changes nothing,
    and dividing by a value [m] that is not below the threshold gives 1.0
    at [m], commutes with the absolute value and keeps the order. *)
Class PeakLaws : Prop := {
  normalize_librosa : forall S, S <> [] -> normalize S = librosa_normalize S;
  fdiv_one : forall x, fdiv x one = x;
  fdiv_same : forall m, flt m tiny = false -> fdiv m m = one;
  fabs_fdiv : forall x m, flt m tiny = false -> fabs (fdiv x m) = fdiv (fabs x) m;
  fmaximum_fdiv : forall a b m, flt m tiny = false ->
    fmaximum (fdiv a m) (fdiv b m) = fdiv (fmaximum a b) m
}.

End Normalize.

(** ** A small instance to run the definitions on

    Integer samples with toy kernels, a file system of three files and a
    processor that encodes the length of the text. *)

Module Demo.

Definition Z_numeric : Numeric :=
  {| sample := Z;
     zero := 0%Z;
     fmaximum := Z.max;
     fsub := Z.sub;
     ten_log10 := fun x => (10 * Z.log2 x)%Z;
     amin := 1%Z;
     top_db := 80%Z;
     to_float32 := fun x => x;
     mel_energy := fun p m frame =>
       (Z.of_nat m + foldr Z.add 0 (map (fun x => x * x) frame))%Z;
     normalize := fun xs => xs |}.

(** Integers as samples. *)
Definition samples (xs : list Z) : list (@sample Z_numeric) := xs.

Definition decode (path : string) (rate : Z) (duration : QArith_base.Q)
  : Result (list (@sample Z_numeric) * Z) :=
  if String.eqb path "dataset/wavs/a.wav" then Ok (samples [3; -5; 10]%Z, rate)
  else if String.eqb path "dataset/wavs/empty.wav" then Ok ([], rate)
  else Raise (OtherException "cannot decode").

Definition files : World (Num := Z_numeric) :=
  {| os_path_join := fun a b => String.append a (String.append "/" b);
     os_path_exists := fun path =>
       String.eqb path "dataset/wavs/a.wav"
       || String.eqb path "dataset/wavs/empty.wav"
       || String.eqb path "dataset/wavs/broken.wav";
     librosa_load := decode;
     processor_call := fun _ txt _ =>
       {| enc_input_ids := [4; Z.of_nat (String.length txt); 2]%Z;
          enc_attention_mask := [1; 1; 1]%Z |} |}.

Definition the_processor : Processor := {| tokenizer := {| pad_token_id := 1 |} |}.

Definition features : list (Feature (Num := Z_numeric)) :=
  [ {| input_ids := [4; 20; 21; 2]%Z; attention_mask := [1; 1; 1; 1]%Z;
       labels := samples [3; -5; 10]%Z; text := "abc" |};
    {| input_ids := [4; 7; 2]%Z; attention_mask := [1; 1; 1]%Z;
       labels := samples [1; 2]%Z; text := "d" |} ].

Definition df : list Row :=
  [ {| row_index := 0; Audio_Path := "wavs/a.wav"; Text := "hello" |};
    {| row_index := 1; Audio_Path := "wavs/missing.wav"; Text := "gone" |};
    {| row_index := 2; Audio_Path := "wavs/empty.wav"; Text := "silent" |};
    {| row_index := 3; Audio_Path := "wavs/broken.wav"; Text := "noise" |};
    {| row_index := 100; Audio_Path := "wavs/a.wav"; Text := "again" |} ].

(** A store holding a collator (at 2) and a list of one feature (at 7). *)
Definition store : list (pyobj (Num := Z_numeric)) :=
  [ PyTokenizer 1; PyProcessor 0; PyCollator 1 512;
    PyInts [4; 20; 2]%Z; PyInts [1; 1; 1]%Z; PyFloats (samples [3; -5]%Z);
    PyFeature 3 4 5 "a"; PyRefs [6] ].

(** Small spectrogram parameters, for running the framing. *)
Definition small_params : MelParams :=
  {| sr := 8%Z; n_mels := 2; n_fft := 4; hop_length := 2; win_length := 4;
     center := true; pad_mode := PadReflect |}.


(** A collator with a budget of one frame, and the batch [features] with
    silence appended to its waveforms and other texts. *)
Definition small_collator : CustomDataCollator :=
  {| processor := the_processor; target_length := 1 |}.

Definition features_with_silence : list (Feature (Num := Z_numeric)) :=
  [ {| input_ids := [4; 20; 21; 2]%Z; attention_mask := [1; 1; 1; 1]%Z;
       labels := samples [3; -5; 10; 0; 0]%Z; text := "other" |};
    {| input_ids := [4; 7; 2]%Z; attention_mask := [1; 1; 1]%Z;
       labels := samples [1; 2; 0]%Z; text := "texts" |} ].


(** Integer samples with the normalisation written out (the division
    truncates), and a file system with a silent clip. *)
Definition Z_normalize (S : list Z) : list Z :=
  let length := match map Z.abs S with [] => 0%Z | x :: rest => foldl Z.max x rest end in
  let length := if (length <? 1)%Z then 1%Z else length in
  map (fun s => Z.quot s length) S.

Definition scaled_numeric : Numeric :=
  {| sample := Z;
     zero := 0%Z;
     fmaximum := Z.max;
     fsub := Z.sub;
     ten_log10 := fun x => (10 * Z.log2 x)%Z;
     amin := 1%Z;
     top_db := 80%Z;
     to_float32 := fun x => x;
     mel_energy := fun p m frame =>
       (Z.of_nat m + foldr Z.add 0 (map (fun x => x * x) frame))%Z;
     normalize := Z_normalize |}.

Definition scaled_peak : PeakArithmetic (Num := scaled_numeric) :=
  @Build_PeakArithmetic scaled_numeric Z.abs Z.quot Z.ltb 1%Z 1%Z.

Definition scaled_samples (xs : list Z) : list (@sample scaled_numeric) := xs.

Definition decode_scaled (path : string) (rate : Z) (duration : QArith_base.Q)
  : Result (list (@sample scaled_numeric) * Z) :=
  if String.eqb path "dataset/wavs/a.wav" then Ok (scaled_samples [3; -5; 10]%Z, rate)
  else if String.eqb path "dataset/wavs/silent.wav" then Ok (scaled_samples [0; 0]%Z, rate)
  else Raise (OtherException "cannot decode").

Definition scaled_files : World (Num := scaled_numeric) :=
  {| os_path_join := fun a b => String.append a (String.append "/" b);
     os_path_exists := fun path =>
       String.eqb path "dataset/wavs/a.wav"
       || String.eqb path "dataset/wavs/silent.wav";
     librosa_load := decode_scaled;
     processor_call := fun _ txt _ =>
       {| enc_input_ids := [4; Z.of_nat (String.length txt); 2]%Z;
          enc_attention_mask := [1; 1; 1]%Z |} |}.

End Demo.

(** ** The definitions at work *)

Example np_pad_reflect_example :
  np_pad (Num := Demo.Z_numeric) [1; 2; 3]%Z 5 5 PadReflect
  = Ok [2; 1; 2; 3; 2; 1; 2; 3; 2; 1; 2; 3; 2]%Z.
Proof. vm_compute. reflexivity. Qed.

Example stft_frames_example :
  stft_frames (Num := Demo.Z_numeric) Demo.small_params [1; 2; 3; 4; 5]%Z
  = Ok [[3; 2; 1; 2]; [1; 2; 3; 4]; [3; 4; 5; 4]]%Z.
Proof. vm_compute. reflexivity. Qed.

Example melspectrogram_example :
  melspectrogram (Num := Demo.Z_numeric) Demo.small_params [1; 2; 3; 4; 5]%Z
  = Ok [[18; 30; 66]; [19; 31; 67]]%Z.
Proof. vm_compute. reflexivity. Qed.

Example transpose_example :
  transpose (Num := Demo.Z_numeric) [[18; 30; 66]; [19; 31; 67]]%Z
  = [[18; 19]; [30; 31]; [66; 67]]%Z.
Proof. vm_compute. reflexivity. Qed.

Example pad_step_example :
  foldl (pad_step 1 4) ([], []) [([4; 20; 21; 2], [1; 1; 1; 1]); ([4; 7; 2], [1; 1; 1])]%Z
  = ([[4; 20; 21; 2]; [4; 7; 2; 1]], [[1; 1; 1; 1]; [1; 1; 1; 0]])%Z.
Proof. vm_compute. reflexivity. Qed.

(** The mask is padded by the number of ids that are missing, whatever its
    own length is. *)
Example pad_step_unaligned :
  foldl (pad_step 1 2) ([], []) [([5; 6], [1])]%Z = ([[5; 6]], [[1]])%Z.
Proof. vm_compute. reflexivity. Qed.

Example torch_tensor2_ragged :
  is_Ok (torch_tensor2 [[1; 1]; [1]]%Z) = false.
Proof. reflexivity. Qed.

Example load_audio_examples :
  load_audio (W := Demo.files) "wavs/a.wav" "dataset" default_max_duration
    = (Some (Demo.samples [3; -5; 10]%Z), []) /\
  load_audio (W := Demo.files) "wavs/missing.wav" "dataset" default_max_duration
    = (None, [AudioFileDoesNotExist "dataset/wavs/missing.wav"]) /\
  load_audio (W := Demo.files) "wavs/empty.wav" "dataset" default_max_duration
    = (None, [LoadedAudioIsEmpty "dataset/wavs/empty.wav"]) /\
  load_audio (W := Demo.files) "wavs/broken.wav" "dataset" default_max_duration
    = (None, [ErrorLoadingAudio "dataset/wavs/broken.wav" (OtherException "cannot decode")]).
Proof. vm_compute. repeat split. Qed.

Example prepare_dataset_example :
  prepare_dataset (W := Demo.files) Demo.df "dataset" Demo.the_processor
  = (Ok [ {| input_ids := [4; 5; 2]%Z; attention_mask := [1; 1; 1]%Z;
             labels := Demo.samples [3; -5; 10]%Z; text := "hello" |};
          {| input_ids := [4; 5; 2]%Z; attention_mask := [1; 1; 1]%Z;
             labels := Demo.samples [3; -5; 10]%Z; text := "again" |} ],
     [ ProcessingAudioFiles; ProcessedFiles 0;
       AudioFileDoesNotExist "dataset/wavs/missing.wav";
       LoadedAudioIsEmpty "dataset/wavs/empty.wav";
       ErrorLoadingAudio "dataset/wavs/broken.wav" (OtherException "cannot decode");
       ProcessedFiles 100; SuccessfullyProcessed 2 ]).
Proof. vm_compute. reflexivity. Qed.

Example store_reads :
  collator_at Demo.store 2 = Some (CustomDataCollator_init Demo.the_processor) /\
  features_at Demo.store 7
    = Some [ {| input_ids := [4; 20; 2]%Z; attention_mask := [1; 1; 1]%Z;
                labels := Demo.samples [3; -5]%Z; text := "a" |} ].
Proof. vm_compute. split; reflexivity. Qed.

(** One turn of the padding loop on the store: two new rows at the end,
    the two local lists (at 8 and 9) updated, nothing else touched. *)
Example pad_body_example :
  pad_body 2 5 8 9 (3, 4) (Demo.store ++ [PyRefs []; PyRefs []])
  = (Ok tt,
     Demo.store ++ [PyRefs [11]; PyRefs [13];
                    PyInts [1; 1]%Z; PyInts [4; 20; 2; 1; 1]%Z;
                    PyInts [0; 0]%Z; PyInts [1; 1; 1; 0; 0]%Z]).
Proof. vm_compute. reflexivity. Qed.

Section ArrayFacts.
Context {Num : Numeric}.

Lemma py_max_cons x rest : py_max (x :: rest) = Ok (foldl Nat.max x rest).
Proof. reflexivity. Qed.

Lemma foldl_max_ge (rest : list nat) x : x <= foldl Nat.max x rest.
Proof.
  revert x. induction rest as [|y rest IH]; intros x; simpl; [lia|].
  etransitivity; [|apply IH]. lia.
Qed.

Lemma foldl_max_upper (rest : list nat) x y :
  y ∈ x :: rest -> y <= foldl Nat.max x rest.
Proof.
  revert x. induction rest as [|z rest IH]; intros x Hy; simpl.
  - apply list_elem_of_singleton in Hy. lia.
  - pose proof (foldl_max_ge rest (Nat.max x z)) as Hge.
    apply elem_of_cons in Hy as [->|Hy]; [lia|].
    apply elem_of_cons in Hy as [->|Hy]; [lia|].
    apply IH. by right.
Qed.

Lemma foldl_max_elem (rest : list nat) x : foldl Nat.max x rest ∈ x :: rest.
Proof.
  revert x. induction rest as [|z rest IH]; intros x; simpl; [left|].
  specialize (IH (Nat.max x z)).
  apply elem_of_cons in IH as [Heq|IH].
  - rewrite Heq. destruct (Nat.max_spec x z) as [[_ ->]|[_ ->]]; [right; left|left].
  - right. by right.
Qed.
Lemma Forall2_map_l {A B C} (f : A -> B) (P : B -> C -> Prop) (l : list A) (k : list C) :
  Forall2 P (map f l) k -> Forall2 (fun x y => P (f x) y) l k.
Proof.
  revert k. induction l as [|x l IH]; intros k Hk; inversion Hk; subst; constructor; auto.
Qed.

Lemma Forall2_map_r {A B C} (g : B -> C) (P : A -> C -> Prop) (l : list A) (k : list B) :
  Forall2 (fun x y => P x (g y)) l k -> Forall2 P l (map g k).
Proof. induction 1; constructor; auto. Qed.

End ArrayFacts.

Section ShapeFacts.
Context {Num : Numeric}.

Lemma torch_tensor2_rect {A} (rows : list (list A)) c :
  Forall (fun r => length r = c) rows -> torch_tensor2 rows = Ok rows.
Proof.
  intros Hall. destruct rows as [|r rest]; [done|]. simpl.
  apply Forall_cons in Hall as [Hr Hrest].
  replace (forallb _ rest) with true; [done|].
  symmetry. apply forallb_forall. intros r' Hin.
  apply Nat.eqb_eq. rewrite Forall_forall in Hrest.
  rewrite Hr. apply Hrest. by apply list_elem_of_In.
Qed.

Lemma torch_tensor2_Ok {A} (rows t : list (list A)) :
  torch_tensor2 rows = Ok t ->
  t = rows /\ Forall (fun r => length r = length (hd [] rows)) rows.
Proof.
  destruct rows as [|r rest]; simpl.
  - intros [= <-]. by split.
  - destruct (forallb _ rest) eqn:E; [|done]. intros [= <-]. split; [done|].
    constructor; [done|]. apply Forall_forall. intros r' Hin.
    rewrite forallb_forall in E. apply Nat.eqb_eq, E. by apply list_elem_of_In.
Qed.

Lemma has_shape2_lookup {A} r c (M : list (list A)) i row :
  has_shape2 r c M -> M !! i = Some row -> length row = c.
Proof. intros [_ Hall] Hi. by eapply (Forall_lookup_1 _ _ _ _ Hall Hi). Qed.

(** *** Reflect padding and framing *)

Lemma np_pad_length a before after mode y :
  np_pad a before after mode = Ok y -> length y = before + length a + after.
Proof.
  unfold np_pad. destruct mode.
  - intros [= <-]. rewrite !length_app, !length_replicate. lia.
  - destruct a as [|x a].
    + destruct (before + after =? 0) eqn:E; [|done]. intros [= <-].
      apply Nat.eqb_eq in E. simpl. lia.
    + intros [= <-]. by rewrite length_map, length_seq.
Qed.

Lemma np_pad_reflect_Ok a before after :
  a <> [] -> is_Ok (np_pad a before after PadReflect) = true.
Proof. by destruct a. Qed.

Lemma np_pad_constant_Ok a before after :
  np_pad a before after PadConstant = Ok (replicate before zero ++ a ++ replicate after zero).
Proof. done. Qed.

Lemma stft_frames_shape (p : MelParams) y :
  hop_length p <> 0 -> center p = true -> pad_mode p = PadReflect ->
  Nat.even (n_fft p) = true -> y <> [] ->
  exists frames, stft_frames p y = Ok frames /\
    has_shape2 (1 + length y / hop_length p) (n_fft p) frames.
Proof.
  intros Hhop Hc Hm Heven Hy. unfold stft_frames.
  destruct (Nat.eqb_spec (hop_length p) 0) as [|_]; [done|].
  rewrite Hc, Hm.
  destruct (np_pad y (n_fft p / 2) (n_fft p / 2) PadReflect) as [yp|e] eqn:Hpad;
    [|by pose proof (np_pad_reflect_Ok y (n_fft p / 2) (n_fft p / 2) Hy) as Hok;
        rewrite Hpad in Hok].
  apply np_pad_length in Hpad. cbn [mbind Result_bind].
  assert (Hfft : n_fft p / 2 + n_fft p / 2 = n_fft p).
  { apply Nat.even_spec in Heven as [k ->].
    rewrite (Nat.mul_comm 2 k), Nat.div_mul by done. lia. }
  destruct (Nat.ltb_spec (length yp) (n_fft p)) as [Hlt|Hge]; [lia|].
  eexists; split; [done|]. split.
  - rewrite length_map, length_seq. f_equal. f_equal. lia.
  - apply Forall_forall. intros fr Hin.
    apply list_elem_of_fmap in Hin as (t & -> & Ht).
    apply elem_of_seq in Ht.
    rewrite length_take, length_drop.
    assert (t <= length y / hop_length p) as Ht' by (replace (length yp - n_fft p) with (length y) in Ht by lia; lia).
    assert (t * hop_length p <= length y).
    { etransitivity; [apply Nat.mul_le_mono_r, Ht'|].
      rewrite Nat.mul_comm. by apply Nat.Div0.mul_div_le. }
    lia.
Qed.

Lemma melspectrogram_shape (p : MelParams) y :
  hop_length p <> 0 -> center p = true -> pad_mode p = PadReflect ->
  Nat.even (n_fft p) = true -> y <> [] ->
  exists P, melspectrogram p y = Ok P /\
    has_shape2 (n_mels p) (1 + length y / hop_length p) P.
Proof.
  intros Hhop Hc Hm Heven Hy. unfold melspectrogram.
  destruct (stft_frames_shape p y Hhop Hc Hm Heven Hy) as (frames & -> & Hlen & _).
  cbn [mbind Result_bind]. eexists; split; [done|]. split.
  - by rewrite length_map, length_seq.
  - apply Forall_forall. intros row Hin.
    apply list_elem_of_fmap in Hin as (m & -> & _). by rewrite length_map.
Qed.

End ShapeFacts.

Section PipelineFacts.
Context {Num : Numeric}.

Lemma has_shape2_map {A B} (f : A -> B) r c (M : list (list A)) :
  has_shape2 r c M -> has_shape2 r c (map (map f) M).
Proof.
  intros [Hr Hc]. split; [by rewrite length_map|].
  apply Forall_forall. intros row Hin.
  apply list_elem_of_fmap in Hin as (row' & -> & Hin).
  rewrite length_map. rewrite Forall_forall in Hc. by apply Hc.
Qed.

Lemma has_shape2_concat_nonempty {A} r c (M : list (list A)) :
  has_shape2 r c M -> 0 < r -> 0 < c -> concat M <> [].
Proof.
  intros [Hr Hc] Hr0 Hc0. destruct M as [|row M]; simpl in *; [lia|].
  apply Forall_cons in Hc as [Hrow _]. destruct row; simpl in *; [lia|done].
Qed.

Lemma np_max_Ok (P : matrix) :
  concat P <> [] -> exists m, np_max P = Ok m.
Proof. unfold np_max. destruct (concat P); [done|eauto]. Qed.

Lemma power_to_db_ref_max_shape (P : matrix) r c :
  has_shape2 r c P -> 0 < r -> 0 < c ->
  exists ref_value top,
    np_max P = Ok ref_value /\
    power_to_db_ref_max P =
      Ok (map (map (fun x =>
            fmaximum (fsub (ten_log10 (fmaximum amin x))
                           (ten_log10 (fmaximum amin ref_value)))
                     (fsub top top_db))) P) /\
    forall D, power_to_db_ref_max P = Ok D -> has_shape2 r c D.
Proof.
  intros Hs Hr Hc. unfold power_to_db_ref_max.
  destruct (np_max_Ok P) as [ref_value Href];
    [by eapply has_shape2_concat_nonempty|].
  rewrite Href. cbn [mbind Result_bind].
  set (log_spec := map _ P).
  assert (Hlog : has_shape2 r c log_spec) by by apply has_shape2_map.
  destruct (np_max_Ok log_spec) as [top Htop];
    [by eapply has_shape2_concat_nonempty|].
  rewrite Htop. cbn [mbind Result_bind].
  exists ref_value, top. split; [done|]. split.
  - f_equal. unfold log_spec. rewrite map_map. apply map_ext. intros row.
    by rewrite map_map.
  - intros D [= <-]. by apply has_shape2_map.
Qed.

Lemma transpose_shape (M : matrix) r c :
  has_shape2 r c M -> 0 < r -> has_shape2 c r (transpose M).
Proof.
  intros [Hr Hc] Hr0. unfold transpose.
  assert (length (hd [] M) = c) as ->.
  { destruct M as [|row M]; simpl in *; [lia|]. by apply Forall_cons in Hc as [? _]. }
  split; [by rewrite length_map, length_seq|].
  apply Forall_forall. intros col Hin.
  apply list_elem_of_fmap in Hin as (j & -> & _). by rewrite length_map.
Qed.

(** Lines 40-44. *)
Lemma fit_audio_spec (T : nat) (audio : list sample) :
  exists y, fit_audio T audio = Ok y /\ length y = T * 512 /\
    (T * 512 < length audio -> y = take (T * 512) audio) /\
    (length audio <= T * 512 -> y = audio ++ replicate (T * 512 - length audio) zero).
Proof.
  unfold fit_audio. cbv zeta.
  destruct (Nat.ltb_spec (T * 512) (length audio)) as [Hlt|Hge].
  - eexists; split; [done|]. split; [rewrite length_take; lia|]. split; [done|lia].
  - rewrite np_pad_constant_Ok. eexists; split; [done|].
    cbn [replicate app]. split; [rewrite length_app, length_replicate; lia|].
    split; [lia|done].
Qed.

Lemma np_concatenate0_rect (a b : matrix) c :
  Forall (fun row => length row = c) a -> Forall (fun row => length row = c) b ->
  np_concatenate0 a b = Ok (a ++ b).
Proof.
  intros Ha Hb. unfold np_concatenate0.
  destruct a as [|ra a']; [done|]. destruct b as [|rb b']; [done|].
  replace (forallb _ _) with true; [done|].
  symmetry. apply forallb_forall. intros row Hin. apply Nat.eqb_eq.
  apply Forall_cons in Ha as Ha'. destruct Ha' as [-> _].
  assert (Hall : Forall (fun row => length row = c) ((ra :: a') ++ rb :: b'))
    by by apply Forall_app.
  rewrite Forall_forall in Hall. apply Hall. by apply list_elem_of_In.
Qed.

(** Lines 64-68. *)
Lemma fit_frames_spec (T : nat) (mel_spec : matrix) :
  Forall (fun row => length row = 80) mel_spec ->
  exists M, fit_frames T mel_spec = Ok M /\ has_shape2 T 80 M /\
    (T < length mel_spec -> M = take T mel_spec) /\
    (length mel_spec <= T ->
       M = mel_spec ++ replicate (T - length mel_spec) (replicate 80 zero)).
Proof.
  intros Hw. unfold fit_frames.
  destruct (Nat.ltb_spec T (length mel_spec)) as [Hlt|Hge].
  - eexists; split; [done|]. split; [|split; [done|lia]].
    split; [rewrite length_take; lia|]. by apply Forall_take.
  - destruct (Nat.ltb_spec (length mel_spec) T) as [Hlt|Hge'].
    + cbv zeta. unfold np_zeros.
      assert (Hz : Forall (fun row : list sample => length row = 80)
                (replicate (T - length mel_spec) (replicate 80 zero))).
      { apply Forall_replicate. by rewrite length_replicate. }
      rewrite (np_concatenate0_rect _ _ 80) by done.
      eexists; split; [done|]. split; [|split; [lia|done]].
      split; [rewrite length_app, length_replicate; lia|by apply Forall_app].
    + assert (length mel_spec = T) by lia. subst T.
      eexists; split; [done|]. split; [by split|]. split; [lia|].
      intros _. by rewrite Nat.sub_diag, app_nil_r.
Qed.

End PipelineFacts.

Section CollatorFacts.
Context {Num : Numeric}.

Lemma mel_params_melspectrogram y :
  y <> [] ->
  exists P, melspectrogram mel_params y = Ok P /\
    has_shape2 80 (1 + length y / 512) P.
Proof. intros Hy. by apply (melspectrogram_shape mel_params y). Qed.

(** Lines 47-61 on a non-empty waveform: 80 bands of [1 + len // 512]
    frames, decibels relative to the largest entry [ref_value] of the
    clip's own spectrogram, then the transposition. *)
Lemma log_mel_spec y :
  y <> [] ->
  exists P ref_value top,
    melspectrogram mel_params y = Ok P /\
    np_max P = Ok ref_value /\
    log_mel y =
      Ok (transpose (map (map (fun x =>
            fmaximum (fsub (ten_log10 (fmaximum amin x))
                           (ten_log10 (fmaximum amin ref_value)))
                     (fsub top top_db))) P)) /\
    forall M, log_mel y = Ok M -> has_shape2 (1 + length y / 512) 80 M.
Proof.
  intros Hy. destruct (mel_params_melspectrogram y Hy) as (P & HS & Hshape).
  destruct (power_to_db_ref_max_shape P _ _ Hshape) as (ref_value & top & Href & Hdb & Hsh);
    [lia..|].
  exists P, ref_value, top. unfold log_mel. rewrite HS. cbn [mbind Result_bind].
  rewrite Hdb. cbn [mbind Result_bind]. split; [done|]. split; [done|]. split; [done|].
  intros M [= <-]. apply transpose_shape; [|lia]. by apply Hsh.
Qed.

Lemma clip_frames (T : nat) (audio : list sample) :
  0 < T ->
  exists y D, fit_audio T audio = Ok y /\ length y = T * 512 /\
    log_mel y = Ok D /\ has_shape2 (1 + T) 80 D /\
    fit_frames T D = Ok (take T D).
Proof.
  intros HT. destruct (fit_audio_spec T audio) as (y & Hy & Hlen & _).
  assert (Hne : y <> []) by (intros ->; simpl in Hlen; lia).
  destruct (log_mel_spec y Hne) as (P & r & t & _ & _ & HD & Hsh).
  eexists y, _. split; [done|]. split; [done|]. split; [exact HD|].
  specialize (Hsh _ HD). rewrite Hlen, Nat.div_mul in Hsh by done.
  split; [done|]. destruct Hsh as [Hrows Hcols].
  unfold fit_frames. rewrite Hrows.
  by destruct (Nat.ltb_spec T (1 + T)); [|lia].
Qed.

Lemma mel_step_clip (T : nat) (audio : list sample) :
  0 < T ->
  exists M, clip T audio M /\ has_shape2 T 80 M /\
    forall acc, mel_step T acc audio = Ok (acc ++ [M]).
Proof.
  intros HT. destruct (clip_frames T audio HT) as (y & D & Hy & Hlen & HD & Hsh & HM).
  exists (take T D). split; [by exists y, D|]. split.
  - destruct Hsh as [Hrows Hcols]. split; [rewrite length_take; lia|by apply Forall_take].
  - intros acc. unfold mel_step. rewrite Hy. cbn [mbind Result_bind].
    rewrite HD. cbn [mbind Result_bind]. by rewrite HM.
Qed.

Lemma for_loop_mel_step (T : nat) (audios : list (list sample)) :
  0 < T ->
  exists Ms, Forall2 (clip T) audios Ms /\ Forall (has_shape2 T 80) Ms /\
    forall acc, for_loop (mel_step T) audios acc = Ok (acc ++ Ms).
Proof.
  intros HT. induction audios as [|audio audios (Ms & Hclip & Hsh & Hloop)].
  - exists []. repeat split; [constructor..|]. intros acc. by rewrite app_nil_r.
  - destruct (mel_step_clip T audio HT) as (M & HM & HshM & Hstep).
    exists (M :: Ms). split; [by constructor|]. split; [by constructor|].
    intros acc. cbn [for_loop]. rewrite Hstep. cbn [mbind Result_bind].
    by rewrite Hloop, <- app_assoc.
Qed.

Lemma has_shape2_lengths {A} r c (M : list (list A)) :
  has_shape2 r c M -> map length M = replicate r c.
Proof.
  intros [Hr Hc]. subst r. induction Hc as [|row M Hrow HM IH]; [done|].
  simpl. by rewrite Hrow, IH.
Qed.

Lemma np_stack_same_shape (arrays : list matrix) r c :
  arrays <> [] -> Forall (has_shape2 r c) arrays -> np_stack arrays = Ok arrays.
Proof.
  intros Hne Hall. destruct arrays as [|a rest]; [done|]. unfold np_stack.
  pose proof (has_shape2_lengths (A:=sample) r c) as Hlens.
  apply Forall_cons in Hall as [Ha Hrest].
  replace (forallb _ rest) with true; [done|].
  symmetry. apply forallb_forall. intros b Hb. apply bool_decide_eq_true.
  rewrite Forall_forall in Hrest.
  rewrite (Hlens a Ha). apply Hlens, Hrest. by apply list_elem_of_In.
Qed.

Lemma foldl_pad_step (pad : Z) (m : nat) (ims : list (list Z * list Z)) acc :
  foldl (pad_step pad m) acc ims =
    (acc.1 ++ map (fun im => im.1 ++ replicate (m - length im.1) pad) ims,
     acc.2 ++ map (fun im => im.2 ++ replicate (m - length im.1) 0%Z) ims).
Proof.
  revert acc. induction ims as [|[ids mask] ims IH]; intros [a1 a2]; simpl.
  - by rewrite !app_nil_r.
  - rewrite IH. simpl. by rewrite <- !app_assoc.
Qed.

Lemma zip_fields (features : list Feature) :
  zip (map input_ids features) (map attention_mask features) =
  map (fun f => (input_ids f, attention_mask f)) features.
Proof. induction features as [|f fs IH]; [done|]. simpl. by rewrite IH. Qed.

Lemma py_max_lengths (features : list Feature) :
  features <> [] ->
  exists m, py_max (map length (map input_ids features)) = Ok m /\
            is_max_length features m.
Proof.
  intros Hne. destruct features as [|f fs]; [done|]. simpl.
  eexists; split; [done|]. split.
  - intros g Hg. apply foldl_max_upper.
    change (length (input_ids g) ∈ map length (map input_ids (f :: fs))).
    apply list_elem_of_fmap. exists (input_ids g). split; [done|].
    apply list_elem_of_fmap. by exists g.
  - pose proof (foldl_max_elem (map length (map input_ids fs)) (length (input_ids f))) as Hin.
    change (foldl Nat.max (length (input_ids f)) (map length (map input_ids fs))
              ∈ map length (map input_ids (f :: fs))) in Hin.
    apply list_elem_of_fmap in Hin as (ids & Hlen & Hin).
    apply list_elem_of_fmap in Hin as (g & -> & Hg). by exists g.
Qed.

Lemma padded_rows (pad : Z) (m : nat) (features : list Feature) :
  foldl (pad_step pad m) ([], [])
        (zip (map input_ids features) (map attention_mask features)) =
  (map (padded_ids pad m) features, map (padded_mask m) features).
Proof. rewrite zip_fields, foldl_pad_step. cbn [fst snd app]. by rewrite !map_map. Qed.

Lemma padded_ids_rect (pad : Z) (m : nat) (features : list Feature) :
  (forall f, f ∈ features -> length (input_ids f) <= m) ->
  Forall (fun row => length row = m) (map (padded_ids pad m) features).
Proof.
  intros Hle. apply Forall_forall. intros row Hin.
  apply list_elem_of_fmap in Hin as (f & -> & Hf). unfold padded_ids.
  rewrite length_app, length_replicate. specialize (Hle f Hf). lia.
Qed.

Lemma padded_mask_rect (m : nat) (features : list Feature) :
  (forall f, f ∈ features -> length (input_ids f) <= m) ->
  Forall aligned features ->
  Forall (fun row => length row = m) (map (padded_mask m) features).
Proof.
  intros Hle Hal. apply Forall_forall. intros row Hin.
  apply list_elem_of_fmap in Hin as (f & -> & Hf). unfold padded_mask.
  rewrite length_app, length_replicate. specialize (Hle f Hf).
  rewrite Forall_forall in Hal. specialize (Hal f Hf). unfold aligned in Hal. lia.
Qed.

(** [__call__] on a non-empty batch, up to the tensor of the token ids. *)
Lemma call_tokens (self : CustomDataCollator) (features : list Feature) :
  features <> [] ->
  exists m,
    is_max_length features m /\
    call self features =
      (attention_mask_tensor ← torch_tensor2 (map (padded_mask m) features);
       mel_specs ← for_loop (mel_step (target_length self)) (map labels features) [];
       stacked ← np_stack mel_specs;
       Ok {| batch_input_ids :=
               map (padded_ids (pad_token_id (tokenizer (processor self))) m) features;
             batch_attention_mask := attention_mask_tensor;
             batch_labels := map (map (map to_float32)) stacked |}).
Proof.
  intros Hne. destruct (py_max_lengths features Hne) as (m & Hmax & Hm).
  exists m. split; [done|].
  unfold call. cbv zeta. rewrite Hmax. cbn [mbind Result_bind].
  rewrite padded_rows.
  by rewrite (torch_tensor2_rect (map (padded_ids _ m) features) m)
    by (apply padded_ids_rect, Hm).
Qed.

(** The whole of [__call__] on a non-empty batch: only the tensor of the
    attention masks can fail, when the padded masks differ in length. *)
Lemma call_nonempty (self : CustomDataCollator) (features : list Feature) :
  features <> [] -> 0 < target_length self ->
  exists m Ms,
    is_max_length features m /\
    for_loop (mel_step (target_length self)) (map labels features) [] = Ok Ms /\
    Forall2 (clip (target_length self)) (map labels features) Ms /\
    Forall (has_shape2 (target_length self) 80) Ms /\
    call self features =
      (attention_mask_tensor ← torch_tensor2 (map (padded_mask m) features);
       Ok {| batch_input_ids :=
               map (padded_ids (pad_token_id (tokenizer (processor self))) m) features;
             batch_attention_mask := attention_mask_tensor;
             batch_labels := map (map (map to_float32)) Ms |}).
Proof.
  intros Hne HT.
  destruct (py_max_lengths features Hne) as (m & Hmax & Hm).
  destruct (for_loop_mel_step (target_length self) (map labels features) HT)
    as (Ms & Hclip & Hsh & Hloop).
  exists m, Ms. split; [done|]. split; [apply (Hloop [])|]. split; [done|]. split; [done|].
  unfold call. cbv zeta. rewrite Hmax. cbn [mbind Result_bind].
  rewrite padded_rows.
  rewrite (torch_tensor2_rect (map (padded_ids _ m) features) m)
    by (apply padded_ids_rect, Hm).
  cbn [mbind Result_bind]. rewrite Hloop. cbn [app].
  destruct (torch_tensor2 (map (padded_mask m) features)) as [t|e]; [|done].
  cbn [mbind Result_bind].
  rewrite (np_stack_same_shape Ms (target_length self) 80); [done| |done].
  intros ->. apply Forall2_length in Hclip. rewrite length_map in Hclip.
  by destruct features.
Qed.

(** The whole of [__call__] on a non-empty batch of aligned features. *)
Lemma call_Ok (self : CustomDataCollator) (features : list Feature) :
  features <> [] -> Forall aligned features -> 0 < target_length self ->
  exists m Ms,
    is_max_length features m /\
    Forall2 (clip (target_length self)) (map labels features) Ms /\
    Forall (has_shape2 (target_length self) 80) Ms /\
    call self features =
      Ok {| batch_input_ids :=
              map (padded_ids (pad_token_id (tokenizer (processor self))) m) features;
            batch_attention_mask := map (padded_mask m) features;
            batch_labels := map (map (map to_float32)) Ms |}.
Proof.
  intros Hne Hal HT.
  destruct (call_nonempty self features Hne HT) as (m & Ms & Hm & _ & Hclip & Hsh & Hcall).
  exists m, Ms. split; [done|]. split; [done|]. split; [done|].
  rewrite Hcall. by rewrite (torch_tensor2_rect _ m) by (apply padded_mask_rect; [apply Hm|done]).
Qed.

End CollatorFacts.

Section DatasetFacts.
Context {Num : Numeric} {W : World}.

Lemma item_of_row_None dataset_dir processor row :
  item_of_row dataset_dir processor row = None <->
  (load_audio (Audio_Path row) dataset_dir default_max_duration).1 = None.
Proof. unfold item_of_row. by destruct (load_audio _ _ _).1. Qed.

Lemma prepare_step_data dataset_dir processor st row :
  (prepare_step dataset_dir processor st row).1 =
  st.1 ++ option_list (item_of_row dataset_dir processor row).
Proof.
  unfold prepare_step, item_of_row. destruct st as [processed_data out].
  destruct (load_audio _ _ _) as [[audio|] printed]; simpl; [done|].
  by rewrite app_nil_r.
Qed.

Lemma foldl_prepare_step_data dataset_dir processor df st :
  (foldl (prepare_step dataset_dir processor) st df).1 =
  st.1 ++ omap (item_of_row dataset_dir processor) df.
Proof.
  revert st. induction df as [|row df IH]; intros st; simpl.
  - by rewrite app_nil_r.
  - rewrite IH, prepare_step_data, <- app_assoc. f_equal.
    by destruct (item_of_row _ _ _).
Qed.

Lemma prepare_dataset_data df dataset_dir processor :
  (prepare_dataset df dataset_dir processor).1 =
  match omap (item_of_row dataset_dir processor) df with
  | [] => Raise (ValueError "No data was successfully processed")
  | item :: items => Ok (item :: items)
  end.
Proof.
  unfold prepare_dataset.
  pose proof (foldl_prepare_step_data dataset_dir processor df ([], [ProcessingAudioFiles])) as Hd.
  destruct (foldl _ _ df) as [processed_data out]. simpl in Hd. subst processed_data.
  by destruct (omap _ df).
Qed.

Lemma omap_nil_Forall {A B} (f : A -> option B) (l : list A) :
  omap f l = [] <-> Forall (fun x => f x = None) l.
Proof.
  induction l as [|x l IH]; simpl; [by split|].
  destruct (f x) eqn:E; split.
  - done.
  - intros Hall. apply Forall_cons in Hall as [Hx _]. congruence.
  - intros Hnil. constructor; [done|]. by apply IH.
  - intros Hall. apply Forall_cons in Hall as [_ Hl]. by apply IH.
Qed.

Lemma length_omap_filter {A B} (f : A -> option B) (l : list A) :
  length (omap f l) = length (filter (fun x => is_Some (f x)) l).
Proof.
  induction l as [|x l IH]; [done|]. rewrite filter_cons. cbn [omap list_omap].
  case_decide as Hx.
  - destruct Hx as [y Hy]. rewrite Hy. simpl. by rewrite IH.
  - destruct (f x) eqn:E; [|done]. exfalso. apply Hx. eauto.
Qed.

End DatasetFacts.

Section StoreFacts.
Context {Num : Numeric}.

Lemma bind_Ok {A B} (m : Py A) (k : A -> Py B) h a h' :
  m h = (Ok a, h') -> py_bind m k h = k a h'.
Proof. unfold py_bind. by intros ->. Qed.

Lemma bind_Raise {A B} (m : Py A) (k : A -> Py B) h e h' :
  m h = (Raise e, h') -> py_bind m k h = (Raise e, h').
Proof. unfold py_bind. by intros ->. Qed.

Lemma load_run h l o : h !! l = Some o -> load l h = (Ok o, h).
Proof. unfold load. by intros ->. Qed.

Lemma load_ints_run h l xs : ints_at h l = Some xs -> load_ints l h = (Ok xs, h).
Proof.
  unfold ints_at, load_ints. destruct (h !! l) as [o|] eqn:E; [|done].
  destruct o; try done. intros [= ->]. by rewrite (bind_Ok _ _ _ _ _ (load_run _ _ _ E)).
Qed.

Lemma load_floats_run h l xs : floats_at h l = Some xs -> load_floats l h = (Ok xs, h).
Proof.
  unfold floats_at, load_floats. destruct (h !! l) as [o|] eqn:E; [|done].
  destruct o; try done. intros [= ->]. by rewrite (bind_Ok _ _ _ _ _ (load_run _ _ _ E)).
Qed.

Lemma load_refs_run h l refs : h !! l = Some (PyRefs refs) -> load_refs l h = (Ok refs, h).
Proof. intros E. unfold load_refs. by rewrite (bind_Ok _ _ _ _ _ (load_run _ _ _ E)). Qed.

Lemma py_map_reads {A B} (g : A -> Py B) h xs ys :
  Forall2 (fun x y => g x h = (Ok y, h)) xs ys -> py_map g xs h = (Ok ys, h).
Proof.
  induction 1 as [|x y xs ys Hx _ IH]; [done|]. cbn [py_map].
  rewrite (bind_Ok _ _ _ _ _ Hx). by rewrite (bind_Ok _ _ _ _ _ IH).
Qed.

Lemma all_at_Forall2 {A} (rd : loc -> option A) ls vs :
  all_at rd ls = Some vs <-> Forall2 (fun l v => rd l = Some v) ls vs.
Proof.
  revert vs. induction ls as [|l ls IH]; intros vs; simpl.
  - split; [intros [= <-]; constructor|by inversion 1].
  - destruct (rd l) as [a|] eqn:Ea; [|split; [done|by inversion 1; congruence]].
    destruct (all_at rd ls) as [r|] eqn:Er.
    + split.
      * intros [= <-]. constructor; [done|]. by apply IH.
      * inversion 1 as [|? v ? vs' Hv Hvs]; subst. apply IH in Hvs.
        congruence.
    + split; [done|]. inversion 1 as [|? v ? vs' Hv Hvs]; subst. by apply IH in Hvs.
Qed.

(** Reading values is stable when the store grows or when other objects
    change. *)
Lemma keeps_ints_refl h : keeps_ints h h.
Proof. by intros l xs. Qed.

Lemma keeps_ints_trans h1 h2 h3 : keeps_ints h1 h2 -> keeps_ints h2 h3 -> keeps_ints h1 h3.
Proof. intros H12 H23 l xs Hl. by apply H23, H12. Qed.

Lemma keeps_ints_alloc h o : keeps_ints h (h ++ [o]).
Proof.
  intros l xs. unfold ints_at. destruct (h !! l) as [o'|] eqn:E; [|done].
  by rewrite (lookup_app_l_Some _ _ _ _ E).
Qed.

Lemma keeps_ints_store_refs h p refs refs' :
  h !! p = Some (PyRefs refs) -> keeps_ints h (<[p := PyRefs refs']> h).
Proof.
  intros Hp l xs. unfold ints_at. destruct (decide (p = l)) as [Heq|Hne].
  - subst. by rewrite Hp.
  - by rewrite list_lookup_insert_ne.
Qed.

Lemma keeps_ints_prefix h0 h : h0 `prefix_of` h -> keeps_ints h0 h.
Proof.
  intros [ext ->] l xs. unfold ints_at. destruct (h0 !! l) as [o'|] eqn:E; [|done].
  by rewrite (lookup_app_l_Some _ _ _ _ E).
Qed.

Lemma all_at_keeps_ints h h' ls vs :
  keeps_ints h h' -> all_at (ints_at h) ls = Some vs -> all_at (ints_at h') ls = Some vs.
Proof.
  intros Hk. rewrite !all_at_Forall2. intros HF.
  eapply Forall2_impl; [done|]. intros l v. apply Hk.
Qed.

Lemma prefix_alloc (h0 h : list pyobj) o : h0 `prefix_of` h -> h0 `prefix_of` h ++ [o].
Proof. intros Hp. by apply prefix_app_r. Qed.

Lemma prefix_store (h0 h : list pyobj) p o :
  h0 `prefix_of` h -> length h0 <= p -> h0 `prefix_of` <[p := o]> h.
Proof.
  intros [ext ->] Hp. exists (<[p - length h0 := o]> ext).
  by rewrite insert_app_r_alt.
Qed.

Lemma prefix_lookup (h0 h : list pyobj) l o :
  h0 `prefix_of` h -> h0 !! l = Some o -> h !! l = Some o.
Proof. intros Hp Hl. by eapply prefix_lookup_Some. Qed.

Lemma collator_at_prefix h0 h self c :
  h0 `prefix_of` h -> collator_at h0 self = Some c -> collator_at h self = Some c.
Proof.
  intros Hp. unfold collator_at.
  destruct (h0 !! self) as [[| | | | | |proc tlen]|] eqn:E1; try done.
  destruct (h0 !! proc) as [[| | | | |tok|]|] eqn:E2; try done.
  destruct (h0 !! tok) as [[| | | |pad| |]|] eqn:E3; try done.
  by rewrite (prefix_lookup _ _ _ _ Hp E1), (prefix_lookup _ _ _ _ Hp E2),
    (prefix_lookup _ _ _ _ Hp E3).
Qed.

Lemma getattr_pad_token_id_run h self c :
  collator_at h self = Some c ->
  getattr_pad_token_id self h = (Ok (pad_token_id (tokenizer (processor c))), h).
Proof.
  unfold collator_at, getattr_pad_token_id.
  destruct (h !! self) as [[| | | | | |proc tlen]|] eqn:E1; try done.
  destruct (h !! proc) as [[| | | | |tok|]|] eqn:E2; try done.
  destruct (h !! tok) as [[| | | |pad| |]|] eqn:E3; try done.
  intros [= <-]. rewrite (bind_Ok _ _ _ _ _ (load_run _ _ _ E1)).
  rewrite (bind_Ok _ _ _ _ _ (load_run _ _ _ E2)).
  by rewrite (bind_Ok _ _ _ _ _ (load_run _ _ _ E3)).
Qed.

Lemma getattr_target_length_run h self c :
  collator_at h self = Some c ->
  getattr_target_length self h = (Ok (target_length c), h).
Proof.
  unfold collator_at, getattr_target_length.
  destruct (h !! self) as [[| | | | | |proc tlen]|] eqn:E1; try done.
  destruct (h !! proc) as [[| | | | |tok|]|] eqn:E2; try done.
  destruct (h !! tok) as [[| | | |pad| |]|] eqn:E3; try done.
  intros [= <-]. by rewrite (bind_Ok _ _ _ _ _ (load_run _ _ _ E1)).
Qed.

End StoreFacts.

Section PaddingLoop.
Context {Num : Numeric}.

Lemma lookup_alloc (h : list pyobj) o : (h ++ [o]) !! length h = Some o.
Proof. by apply list_lookup_middle. Qed.

Lemma ints_at_alloc (h : list pyobj) xs : ints_at (h ++ [PyInts xs]) (length h) = Some xs.
Proof. unfold ints_at. by rewrite lookup_alloc. Qed.

Lemma lookup_alloc_old (h : list pyobj) o l o' : h !! l = Some o' -> (h ++ [o]) !! l = Some o'.
Proof. apply lookup_app_l_Some. Qed.

Lemma list_add_run (h : list pyobj) a b xs ys :
  ints_at h a = Some xs -> ints_at h b = Some ys ->
  list_add a b h = (Ok (length h), h ++ [PyInts (xs ++ ys)]).
Proof.
  intros Ha Hb. unfold list_add.
  rewrite (bind_Ok _ _ _ _ _ (load_ints_run _ _ _ Ha)).
  by rewrite (bind_Ok _ _ _ _ _ (load_ints_run _ _ _ Hb)).
Qed.

Lemma list_append_run (h : list pyobj) p refs x :
  h !! p = Some (PyRefs refs) ->
  list_append p x h = (Ok tt, <[p := PyRefs (refs ++ [x])]> h).
Proof.
  intros Hp. unfold list_append.
  by rewrite (bind_Ok _ _ _ _ _ (load_refs_run _ _ _ Hp)).
Qed.

Lemma all_at_snoc {A} (rd : loc -> option A) ls vs l v :
  all_at rd ls = Some vs -> rd l = Some v -> all_at rd (ls ++ [l]) = Some (vs ++ [v]).
Proof.
  rewrite !all_at_Forall2. intros Hls Hl. apply Forall2_app; [done|].
  by constructor.
Qed.

(** Appending a new row [xs] to the local list at [p]. *)
Lemma append_row (h0 h : list pyobj) p q refs xs :
  h0 `prefix_of` h -> length h0 <= p -> p <> q ->
  h !! p = Some (PyRefs refs) ->
  let h' := <[p := PyRefs (refs ++ [length h])]> (h ++ [PyInts xs]) in
  h0 `prefix_of` h' /\ keeps_ints h h' /\
  h' !! p = Some (PyRefs (refs ++ [length h])) /\
  ints_at h' (length h) = Some xs /\
  (forall o, h !! q = Some o -> h' !! q = Some o).
Proof.
  intros Hpre Hlen Hpq Hp h'.
  assert (Hp' : (h ++ [PyInts xs]) !! p = Some (PyRefs refs)) by by apply lookup_alloc_old.
  assert (Hlt : p < length h) by by eapply lookup_lt_Some.
  split; [by apply prefix_store; [apply prefix_alloc|]|].
  split.
  { eapply keeps_ints_trans; [apply keeps_ints_alloc|].
    by eapply keeps_ints_store_refs. }
  split.
  { subst h'. apply list_lookup_insert_eq. rewrite length_app. simpl. lia. }
  split.
  { subst h'. unfold ints_at. rewrite list_lookup_insert_ne by lia.
    by rewrite lookup_alloc. }
  intros o Hq. subst h'. rewrite list_lookup_insert_ne by done.
  by apply lookup_alloc_old.
Qed.

Lemma pad_body_run (h0 : list pyobj) self c m p1 p2 ids mask xs ms R1 R2 (h : list pyobj) :
  p1 <> p2 -> length h0 <= p1 -> length h0 <= p2 ->
  collator_at h0 self = Some c ->
  ints_at h0 ids = Some xs -> ints_at h0 mask = Some ms ->
  pad_inv h0 p1 p2 R1 R2 h ->
  exists h', pad_body self m p1 p2 (ids, mask) h = (Ok tt, h') /\
    pad_inv h0 p1 p2
      (R1 ++ [xs ++ replicate (m - length xs) (pad_token_id (tokenizer (processor c)))])
      (R2 ++ [ms ++ replicate (m - length xs) 0%Z]) h'.
Proof.
  intros Hne Hp1 Hp2 Hc Hids Hmask (Hpre & r1 & r2 & Hr1 & Hr2 & HR1 & HR2).
  set (pad := pad_token_id (tokenizer (processor c))).
  set (n := m - length xs).
  (* the row of token ids *)
  set (ha := h ++ [PyInts (replicate n pad)]).
  assert (Hka : keeps_ints h ha) by apply keeps_ints_alloc.
  assert (Hprea : h0 `prefix_of` ha) by by apply prefix_alloc.
  assert (Hk0a : keeps_ints h0 ha) by by apply keeps_ints_prefix.
  assert (Hr1a : ha !! p1 = Some (PyRefs r1)) by by apply lookup_alloc_old.
  assert (Hr2a : ha !! p2 = Some (PyRefs r2)) by by apply lookup_alloc_old.
  destruct (append_row h0 ha p1 p2 r1 (xs ++ replicate n pad) Hprea Hp1 Hne Hr1a)
    as (Hpreb & Hkb & Hr1b & Hrowb & Hotherb).
  set (hb := <[p1 := PyRefs (r1 ++ [length ha])]> (ha ++ [PyInts (xs ++ replicate n pad)])) in *.
  assert (Hr2b : hb !! p2 = Some (PyRefs r2)) by by apply Hotherb.
  (* the row of the attention mask *)
  set (hc := hb ++ [PyInts (replicate n 0%Z)]).
  assert (Hkc : keeps_ints hb hc) by apply keeps_ints_alloc.
  assert (Hprec : h0 `prefix_of` hc) by by apply prefix_alloc.
  assert (Hk0c : keeps_ints h0 hc) by by apply keeps_ints_prefix.
  assert (Hr1c : hc !! p1 = Some (PyRefs (r1 ++ [length ha]))) by by apply lookup_alloc_old.
  assert (Hr2c : hc !! p2 = Some (PyRefs r2)) by by apply lookup_alloc_old.
  destruct (append_row h0 hc p2 p1 r2 (ms ++ replicate n 0%Z) Hprec Hp2 (not_eq_sym Hne) Hr2c)
    as (Hpred & Hkd & Hr2d & Hrowd & Hotherd).
  set (hd := <[p2 := PyRefs (r2 ++ [length hc])]> (hc ++ [PyInts (ms ++ replicate n 0%Z)])) in *.
  exists hd. split.
  - unfold pad_body.
    rewrite (bind_Ok _ _ _ _ _ (load_ints_run _ _ _ (keeps_ints_prefix _ _ Hpre _ _ Hids))).
    rewrite (bind_Ok _ _ _ _ _ (getattr_pad_token_id_run _ _ _ (collator_at_prefix _ _ _ _ Hpre Hc))).
    fold pad n.
    rewrite (bind_Ok _ (fun pads => _) h (length h) ha) by done.
    rewrite (bind_Ok _ _ _ _ _ (list_add_run ha ids (length h) xs (replicate n pad)
               (Hk0a _ _ Hids) (ints_at_alloc h _))).
    rewrite (bind_Ok _ _ _ _ _ (list_append_run _ p1 r1 (length ha)
               (lookup_alloc_old _ _ _ _ Hr1a))).
    fold hb.
    rewrite (bind_Ok _ (fun zeros => _) hb (length hb) hc) by done.
    rewrite (bind_Ok _ _ _ _ _ (list_add_run hc mask (length hb) ms (replicate n 0%Z)
               (Hk0c _ _ Hmask) (ints_at_alloc hb _))).
    by rewrite (list_append_run _ p2 r2 (length hc) (lookup_alloc_old _ _ _ _ Hr2c)).
  - split; [done|]. exists (r1 ++ [length ha]), (r2 ++ [length hc]).
    assert (Hk : keeps_ints h hb) by by eapply keeps_ints_trans.
    assert (Hk' : keeps_ints hb hd) by by eapply keeps_ints_trans.
    split; [by apply Hotherd|]. split; [done|]. split.
    + apply all_at_snoc; [|by apply Hk'].
      eapply all_at_keeps_ints; [|done]. by eapply keeps_ints_trans.
    + apply all_at_snoc; [|done].
      eapply all_at_keeps_ints; [|done]. by eapply keeps_ints_trans.
Qed.

Lemma py_for_pad_body (h0 : list pyobj) self c m p1 p2 (ims : list (loc * loc))
    (vals : list (list Z * list Z)) R1 R2 (h : list pyobj) :
  p1 <> p2 -> length h0 <= p1 -> length h0 <= p2 ->
  collator_at h0 self = Some c ->
  Forall2 (fun im v => ints_at h0 im.1 = Some v.1 /\ ints_at h0 im.2 = Some v.2) ims vals ->
  pad_inv h0 p1 p2 R1 R2 h ->
  exists h', py_for ims (pad_body self m p1 p2) h = (Ok tt, h') /\
    pad_inv h0 p1 p2
      (R1 ++ map (fun v => v.1 ++ replicate (m - length v.1)
                                    (pad_token_id (tokenizer (processor c)))) vals)
      (R2 ++ map (fun v => v.2 ++ replicate (m - length v.1) 0%Z) vals) h'.
Proof.
  intros Hne Hp1 Hp2 Hc Hall. revert R1 R2 h.
  induction Hall as [|[ids mask] [xs ms] ims vals [Hids Hmask] _ IH]; intros R1 R2 h Hinv.
  - exists h. split; [done|]. simpl. by rewrite !app_nil_r.
  - simpl in Hids, Hmask.
    destruct (pad_body_run h0 self c m p1 p2 ids mask xs ms R1 R2 h) as (h1 & Hrun & Hinv1);
      try done.
    destruct (IH _ _ _ Hinv1) as (h' & Hrun' & Hinv').
    exists h'. split.
    + cbn [py_for]. by rewrite (bind_Ok _ _ _ _ _ Hrun).
    + simpl. by rewrite <- !app_assoc in Hinv'.
Qed.

End PaddingLoop.

Section Refinement.
Context {Num : Numeric}.

Lemma feature_at_inv (h : list pyobj) l f :
  feature_at h l = Some f ->
  exists txt, h !! l = Some (PyFeature (ids_loc h l) (mask_loc h l) (labels_loc h l) txt) /\
    ints_at h (ids_loc h l) = Some (input_ids f) /\
    ints_at h (mask_loc h l) = Some (attention_mask f) /\
    floats_at h (labels_loc h l) = Some (labels f).
Proof.
  unfold feature_at, ids_loc, mask_loc, labels_loc.
  destruct (h !! l) as [[| | |ids mask labs txt| | |]|]; try done.
  destruct (ints_at h ids) as [i|]; [|done].
  destruct (ints_at h mask) as [m|]; [|done].
  destruct (floats_at h labs) as [a|]; [|done].
  intros [= <-]. by exists txt.
Qed.

Lemma floats_at_prefix (h0 h : list pyobj) l xs :
  h0 `prefix_of` h -> floats_at h0 l = Some xs -> floats_at h l = Some xs.
Proof.
  intros Hp. unfold floats_at. destruct (h0 !! l) as [o|] eqn:E; [|done].
  by rewrite (prefix_lookup _ _ _ _ Hp E).
Qed.

Lemma getitem_runs (h0 h : list pyobj) l f :
  h0 `prefix_of` h -> feature_at h0 l = Some f ->
  getitem_input_ids l h = (Ok (ids_loc h0 l), h) /\
  getitem_attention_mask l h = (Ok (mask_loc h0 l), h) /\
  (py_bind (getitem_labels l) load_floats) h = (Ok (labels f), h).
Proof.
  intros Hp Hf. destruct (feature_at_inv _ _ _ Hf) as (txt & Hl & _ & _ & Hlabs).
  pose proof (load_run _ _ _ (prefix_lookup _ _ _ _ Hp Hl)) as Hload.
  unfold getitem_input_ids, getitem_attention_mask, getitem_labels.
  rewrite !(bind_Ok _ _ _ _ _ Hload). split; [done|]. split; [done|].
  rewrite (bind_Ok _ _ h (labels_loc h0 l) h)
    by by rewrite (bind_Ok _ _ _ _ _ Hload).
  apply load_floats_run. by eapply floats_at_prefix.
Qed.

Lemma py_fold_mel_body (h : list pyobj) self c audios mel_specs :
  collator_at h self = Some c ->
  py_fold audios mel_specs (mel_body self) h =
    (for_loop (mel_step (target_length c)) audios mel_specs, h).
Proof.
  intros Hc. revert mel_specs. induction audios as [|audio audios IH]; intros mel_specs.
  - done.
  - cbn [py_fold for_loop].
    assert (Hbody : mel_body self mel_specs audio h =
                    (mel_step (target_length c) mel_specs audio, h)).
    { unfold mel_body. by rewrite (bind_Ok _ _ _ _ _ (getattr_target_length_run _ _ _ Hc)). }
    destruct (mel_step (target_length c) mel_specs audio) as [s'|e].
    + rewrite (bind_Ok _ _ _ _ _ Hbody). apply IH.
    + by rewrite (bind_Raise _ _ _ _ _ Hbody).
Qed.

Lemma torch_tensor_long_run (h : list pyobj) p refs rows :
  h !! p = Some (PyRefs refs) -> all_at (ints_at h) refs = Some rows ->
  torch_tensor_long p h = (torch_tensor2 rows, h).
Proof.
  intros Hp Hrows. unfold torch_tensor_long.
  rewrite (bind_Ok _ _ _ _ _ (load_refs_run _ _ _ Hp)).
  erewrite bind_Ok; [done|]. apply py_map_reads.
  apply all_at_Forall2 in Hrows. eapply Forall2_impl; [done|].
  intros l v. apply load_ints_run.
Qed.

(** The method on the store computes what [call] computes from the values
    the store holds, and leaves every object it was given as it was. *)
Lemma call_store_refines (h0 : list pyobj) self features c fs :
  collator_at h0 self = Some c -> features_at h0 features = Some fs ->
  exists h', call_store self features h0 = (call c fs, h') /\ h0 `prefix_of` h'.
Proof.
  intros Hc Hfs. unfold features_at in Hfs.
  destruct (h0 !! features) as [[| |refs| | | |]|] eqn:Hrefs; try done.
  apply all_at_Forall2 in Hfs.
  set (idlocs := map (ids_loc h0) refs).
  set (masklocs := map (mask_loc h0) refs).
  set (h1 := h0 ++ [PyRefs idlocs]).
  set (h2 := h1 ++ [PyRefs masklocs]).
  assert (Hp1 : h0 `prefix_of` h1) by by apply prefix_app_r.
  assert (Hp2 : h0 `prefix_of` h2) by by apply prefix_alloc.
  assert (Hgets : forall h : list pyobj, h0 `prefix_of` h ->
            py_map getitem_input_ids refs h = (Ok idlocs, h) /\
            py_map getitem_attention_mask refs h = (Ok masklocs, h) /\
            py_map (fun f => py_bind (getitem_labels f) load_floats) refs h =
              (Ok (map labels fs), h)).
  { intros h Hp. subst idlocs masklocs. clear -Hfs Hp.
    split; [|split]; apply py_map_reads.
    - induction Hfs as [|l f refs fs Hf _ IH]; constructor; [|done].
      by destruct (getitem_runs h0 h l f Hp Hf) as (? & ? & ?).
    - induction Hfs as [|l f refs fs Hf _ IH]; constructor; [|done].
      by destruct (getitem_runs h0 h l f Hp Hf) as (? & ? & ?).
    - induction Hfs as [|l f refs fs Hf _ IH]; constructor; [|done].
      by destruct (getitem_runs h0 h l f Hp Hf) as (? & ? & ?). }
  assert (Hvals : Forall2 (fun im v => ints_at h0 im.1 = Some v.1 /\ ints_at h0 im.2 = Some v.2)
            (zip idlocs masklocs) (map (fun f => (input_ids f, attention_mask f)) fs)).
  { subst idlocs masklocs. clear -Hfs.
    induction Hfs as [|l f refs fs Hf _ IH]; [constructor|]. simpl. constructor; [|done].
    by destruct (feature_at_inv _ _ _ Hf) as (txt & _ & ? & ? & _). }
  assert (Hlens : forall h : list pyobj, h0 `prefix_of` h ->
            py_map (fun ids => py_bind (load_ints ids) (fun xs => py_ret (length xs)))
              idlocs h = (Ok (map length (map input_ids fs)), h)).
  { intros h Hp. apply py_map_reads. subst idlocs. clear -Hfs Hp.
    induction Hfs as [|l f refs fs Hf _ IH]; [constructor|]. simpl. constructor; [|done].
    destruct (feature_at_inv _ _ _ Hf) as (txt & _ & Hi & _ & _).
    by rewrite (bind_Ok _ _ _ _ _ (load_ints_run _ _ _ (keeps_ints_prefix _ _ Hp _ _ Hi))). }
  assert (Hin1 : h2 !! length h0 = Some (PyRefs idlocs))
    by (apply lookup_alloc_old, lookup_alloc).
  assert (Hin2 : h2 !! length h1 = Some (PyRefs masklocs)) by apply lookup_alloc.
  unfold call_store, call. cbv zeta.
  rewrite (bind_Ok _ _ _ _ _ (load_refs_run _ _ _ Hrefs)).
  rewrite (bind_Ok _ _ _ _ _ (proj1 (Hgets h0 (reflexivity _)))).
  rewrite (bind_Ok _ (fun input_ids => _) h0 (length h0) h1) by done.
  rewrite (bind_Ok _ _ _ _ _ (proj1 (proj2 (Hgets h1 Hp1)))).
  rewrite (bind_Ok _ (fun attention_mask => _) h1 (length h1) h2) by done.
  rewrite (bind_Ok _ _ _ _ _ (load_refs_run _ _ _ Hin1)).
  rewrite (bind_Ok _ _ _ _ _ (Hlens h2 Hp2)).
  destruct (py_max (map length (map input_ids fs))) as [m|e]; cycle 1.
  { exists h2. split; [|done]. by rewrite (bind_Raise _ _ h2 e h2). }
  rewrite (bind_Ok _ _ h2 m h2) by done. cbn [mbind Result_bind].
  set (h3 := h2 ++ [PyRefs []]). set (h4 := h3 ++ [PyRefs []]).
  rewrite (bind_Ok _ (fun padded_input_ids => _) h2 (length h2) h3) by done.
  rewrite (bind_Ok _ (fun padded_attention_mask => _) h3 (length h3) h4) by done.
  rewrite (bind_Ok _ _ _ _ _ (load_refs_run h4 _ _
             (lookup_alloc_old _ _ _ _ (lookup_alloc_old _ _ _ _ Hin1)))).
  rewrite (bind_Ok _ _ _ _ _ (load_refs_run h4 _ _
             (lookup_alloc_old _ _ _ _ (lookup_alloc_old _ _ _ _ Hin2)))).
  assert (Hinv : pad_inv h0 (length h2) (length h3) [] [] h4).
  { split; [by apply prefix_alloc, prefix_alloc|].
    exists [], []. split; [apply lookup_alloc_old, lookup_alloc|].
    split; [apply lookup_alloc|]. done. }
  assert (Hne : length h2 <> length h3) by (subst h3; rewrite length_app; simpl; lia).
  assert (Hl2 : length h0 <= length h2) by (subst h2 h1; rewrite !length_app; simpl; lia).
  assert (Hl3 : length h0 <= length h3) by (subst h3 h2 h1; rewrite !length_app; simpl; lia).
  destruct (py_for_pad_body h0 self c m (length h2) (length h3) _ _ [] [] h4
              Hne Hl2 Hl3 Hc Hvals Hinv)
    as (h5 & Hloop & Hp5 & r1 & r2 & Hr1 & Hr2 & HR1 & HR2).
  rewrite (bind_Ok _ _ _ _ _ Hloop).
  rewrite zip_fields, foldl_pad_step. cbn [fst snd app] in *.
  pose proof (torch_tensor_long_run _ _ _ _ Hr1 HR1) as Ht1.
  pose proof (torch_tensor_long_run _ _ _ _ Hr2 HR2) as Ht2.
  destruct (torch_tensor2 (map _ (map _ fs))) as [t1|e] in Ht1 |- *; cycle 1.
  { exists h5. split; [|done]. by rewrite (bind_Raise _ _ _ _ _ Ht1). }
  rewrite (bind_Ok _ _ _ _ _ Ht1). cbn [mbind Result_bind].
  destruct (torch_tensor2 (map _ (map _ fs))) as [t2|e] in Ht2 |- *; cycle 1.
  { exists h5. split; [|done]. by rewrite (bind_Raise _ _ _ _ _ Ht2). }
  rewrite (bind_Ok _ _ _ _ _ Ht2). cbn [mbind Result_bind].
  rewrite (bind_Ok _ _ _ _ _ (proj2 (proj2 (Hgets h5 Hp5)))).
  pose proof (py_fold_mel_body h5 self c (map labels fs) []
                (collator_at_prefix _ _ _ _ Hp5 Hc)) as Hmel.
  destruct (for_loop (mel_step (target_length c)) (map labels fs) []) as [Ms|e]; cycle 1.
  { exists h5. split; [|done]. by rewrite (bind_Raise _ _ _ _ _ Hmel). }
  rewrite (bind_Ok _ _ _ _ _ Hmel). cbn [mbind Result_bind].
  exists h5. split; [|done].
  destruct (np_stack Ms) as [stacked|e].
  - by rewrite (bind_Ok _ _ h5 stacked h5).
  - by rewrite (bind_Raise _ _ h5 e h5).
Qed.

End Refinement.

(** ** The properties of the collator *)

Section CollatorClaims.
Context {Num : Numeric}.

(** C1.  For every non-empty batch of features, as the tokenizer builds
    them (the attention mask runs parallel to the token ids, [aligned]), the
    collator built with the default [target_length] returns a batch whose
    spectrogram tensor has shape exactly (batch, 512, 80) and whose
    [input_ids] and [attention_mask] tensors have shape exactly
    (batch, max_len), [max_len] being the largest [input_ids] length of the
    batch. *)
Theorem collator_output_shapes (proc : Processor) (features : list Feature) :
  features <> [] -> Forall aligned features ->
  exists out max_len,
    call (CustomDataCollator_init proc) features = Ok out /\
    is_max_length features max_len /\
    has_shape3 (length features) 512 80 (batch_labels out) /\
    has_shape2 (length features) max_len (batch_input_ids out) /\
    has_shape2 (length features) max_len (batch_attention_mask out).
Proof.
  intros Hne Hal.
  destruct (call_Ok (CustomDataCollator_init proc) features Hne Hal)
    as (m & Ms & Hmax & Hclip & Hsh & Hcall).
  { unfold CustomDataCollator_init, default_target_length. cbn [target_length]. lia. }
  eexists _, m. split; [exact Hcall|]. split; [done|]. cbn [batch_labels batch_input_ids
    batch_attention_mask]. destruct Hmax as [Hle _].
  apply Forall2_length in Hclip. rewrite length_map in Hclip.
  split; [|split].
  - split; [by rewrite length_map|].
    apply Forall_forall. intros M' HM'.
    apply list_elem_of_fmap in HM' as (M & -> & HM).
    rewrite Forall_forall in Hsh. apply has_shape2_map. by apply (Hsh M).
  - split; [by rewrite length_map|].
    apply Forall_forall. intros row Hrow.
    apply list_elem_of_fmap in Hrow as (f & -> & Hf). unfold padded_ids.
    rewrite length_app, length_replicate. specialize (Hle f Hf). lia.
  - split; [by rewrite length_map|].
    apply Forall_forall. intros row Hrow.
    apply list_elem_of_fmap in Hrow as (f & -> & Hf). unfold padded_mask.
    rewrite length_app, length_replicate. specialize (Hle f Hf).
    rewrite Forall_forall in Hal. specialize (Hal f Hf). unfold aligned in Hal. lia.
Qed.

(** C2.  For every waveform, lines 40-44 succeed and yield exactly
    512 * 512 = 262144 samples: the first 262144 samples when the waveform
    is longer, the waveform followed by zeros otherwise; the spectrogram of
    the loop body is computed from that adjusted waveform. *)
Theorem waveform_fitted_to_budget (audio : list sample) :
  exists y,
    fit_audio default_target_length audio = Ok y /\
    Z.of_nat (length y) = 262144%Z /\
    y = (if 512 * 512 <? length audio
         then take (512 * 512) audio
         else audio ++ replicate (512 * 512 - length audio) zero) /\
    forall mel_specs,
      mel_step default_target_length mel_specs audio =
        (mel_spec ← log_mel y;
         mel_spec ← fit_frames default_target_length mel_spec;
         Ok (mel_specs ++ [mel_spec])).
Proof.
  unfold default_target_length.
  destruct (fit_audio_spec 512 audio) as (y & Hy & Hlen & Hlong & Hshort).
  exists y. split; [exact Hy|]. split; [rewrite Hlen; lia|]. split.
  - destruct (Nat.ltb_spec (512 * 512) (length audio)); [by apply Hlong|by apply Hshort].
  - intros mel_specs. unfold mel_step. by rewrite Hy.
Qed.

(** C3.  For every waveform of a batch, the audio loop succeeds and its
    result comes from, in this order: the power mel spectrogram of the
    adjusted waveform with sample rate 16000, 80 mel bands, FFT size 2048,
    hop 512, window 2048, centred frames and reflect padding; decibels
    relative to the largest entry [ref_value] of that clip's own
    spectrogram; the transposition to (frames, 80); the frame budget then
    follows, and the returned tensor is the cast of these results. *)
Theorem spectrogram_pipeline (self : CustomDataCollator) (features : list Feature) :
  0 < target_length self ->
  exists Ms,
    for_loop (mel_step (target_length self)) (map labels features) [] = Ok Ms /\
    Forall2 (fun f M =>
      exists y P ref_value top,
        fit_audio (target_length self) (labels f) = Ok y /\
        melspectrogram
          {| sr := 16000%Z; n_mels := 80; n_fft := 2048; hop_length := 512;
             win_length := 2048; center := true; pad_mode := PadReflect |} y = Ok P /\
        has_shape2 80 (1 + length y / 512) P /\
        np_max P = Ok ref_value /\
        let dB := map (map (fun x =>
                    fmaximum (fsub (ten_log10 (fmaximum amin x))
                                   (ten_log10 (fmaximum amin ref_value)))
                             (fsub top top_db))) P in
        power_to_db_ref_max P = Ok dB /\
        has_shape2 (1 + length y / 512) 80 (transpose dB) /\
        fit_frames (target_length self) (transpose dB) = Ok M)
      features Ms /\
    forall out, call self features = Ok out ->
      batch_labels out = map (map (map to_float32)) Ms.
Proof.
  intros HT.
  destruct (for_loop_mel_step (target_length self) (map labels features) HT)
    as (Ms & Hclip & _ & Hloop).
  exists Ms. split; [apply (Hloop [])|]. split.
  - apply Forall2_map_l in Hclip.
    eapply Forall2_impl; [exact Hclip|]. cbv beta.
    intros f M (y & D & Hy & HD & HM).
    assert (Hney : y <> []).
    { destruct (fit_audio_spec (target_length self) (labels f)) as (y' & Hy' & Hlen & _).
      rewrite Hy in Hy'. injection Hy' as <-. intros ->. simpl in Hlen. lia. }
    destruct (mel_params_melspectrogram y Hney) as (P & HP & HshP).
    destruct (power_to_db_ref_max_shape P _ _ HshP) as (ref_value & top & Href & Hdb & Hsh);
      [lia..|].
    exists y, P, ref_value, top. split; [done|]. split; [exact HP|].
    split; [done|]. split; [done|]. cbv zeta. split; [done|].
    assert (HD' : D = transpose (map (map (fun x =>
                      fmaximum (fsub (ten_log10 (fmaximum amin x))
                                     (ten_log10 (fmaximum amin ref_value)))
                               (fsub top top_db))) P)).
    { unfold log_mel in HD. rewrite HP in HD. cbn [mbind Result_bind] in HD.
      rewrite Hdb in HD. cbn [mbind Result_bind] in HD. by injection HD as <-. }
    subst D. split; [|done].
    apply transpose_shape; [|lia]. by apply Hsh.
  - intros out Hout. destruct features as [|f features]; [done|].
    destruct (call_nonempty self (f :: features)) as (m & Ms' & _ & Hloop' & _ & _ & Hcall);
      [done..|].
    rewrite (Hloop []) in Hloop'. injection Hloop' as <-.
    rewrite Hcall in Hout.
    destruct (torch_tensor2 _) as [t|e]; [|done].
    cbn [mbind Result_bind] in Hout. by injection Hout as <-.
Qed.

(** C4.  For every time-major spectrogram (rows of 80 bands), lines 64-68
    with the default budget yield exactly 512 frames: the first 512 rows
    when there are more, the spectrogram followed by all-zero rows when
    there are fewer. *)
Theorem frames_fitted_to_budget (mel_spec : matrix) :
  Forall (fun row => length row = 80) mel_spec ->
  exists M,
    fit_frames default_target_length mel_spec = Ok M /\
    has_shape2 512 80 M /\
    M = (if 512 <? length mel_spec
         then take 512 mel_spec
         else mel_spec ++ replicate (512 - length mel_spec) (replicate 80 zero)).
Proof.
  intros Hw. unfold default_target_length.
  destruct (fit_frames_spec 512 mel_spec Hw) as (M & HM & Hsh & Hlong & Hshort).
  exists M. split; [exact HM|]. split; [exact Hsh|].
  destruct (Nat.ltb_spec 512 (length mel_spec)); [by apply Hlong|by apply Hshort].
Qed.

(** C5.  For every non-empty batch of features, as the tokenizer builds
    them (the attention mask runs parallel to the token ids, [aligned]), row
    [i] of [input_ids] is the token sequence of feature [i] followed by
    copies of the tokenizer's pad id, up to the largest [input_ids] length
    of the batch, and row [i] of [attention_mask] is the mask of feature [i]
    followed by zeros, up to the same length; these rows are the rows of
    the batch the call returns. *)
Theorem tokens_right_padded (self : CustomDataCollator) (features : list Feature) :
  features <> [] -> Forall aligned features ->
  exists max_len padded_input_ids padded_attention_mask,
    is_max_length features max_len /\
    foldl (pad_step (pad_token_id (tokenizer (processor self))) max_len) ([], [])
          (zip (map input_ids features) (map attention_mask features))
      = (padded_input_ids, padded_attention_mask) /\
    (forall i f, features !! i = Some f ->
      exists ids' mask',
        padded_input_ids !! i = Some ids' /\
        padded_attention_mask !! i = Some mask' /\
        ids' = input_ids f ++
               replicate (max_len - length (input_ids f))
                         (pad_token_id (tokenizer (processor self))) /\
        length ids' = max_len /\
        mask' = attention_mask f ++
                replicate (max_len - length (attention_mask f)) 0%Z /\
        length mask' = max_len) /\
    (forall out, call self features = Ok out ->
       batch_input_ids out = padded_input_ids /\
       batch_attention_mask out = padded_attention_mask) /\
    (0 < target_length self -> exists out, call self features = Ok out).
Proof.
  intros Hne Hal.
  destruct (call_tokens self features Hne) as (m & Hmax & Hcall).
  exists m, (map (padded_ids (pad_token_id (tokenizer (processor self))) m) features),
    (map (padded_mask m) features).
  split; [done|]. split; [apply padded_rows|]. split; [|split].
  - intros i f Hi.
    assert (Hf : f ∈ features) by (apply list_elem_of_lookup; eauto).
    destruct Hmax as [Hle _]. specialize (Hle f Hf).
    rewrite Forall_forall in Hal. specialize (Hal f Hf). unfold aligned in Hal.
    exists (padded_ids (pad_token_id (tokenizer (processor self))) m f), (padded_mask m f).
    rewrite !list_lookup_fmap, Hi. unfold padded_ids, padded_mask. rewrite Hal.
    repeat split; rewrite ?length_app, ?length_replicate; lia.
  - intros out Hout. rewrite Hcall in Hout.
    rewrite (torch_tensor2_rect _ m) in Hout by (apply padded_mask_rect; [apply Hmax|done]).
    cbn [mbind Result_bind] in Hout.
    destruct (for_loop _ _ _) as [mel_specs|e]; [|done]. cbn [mbind Result_bind] in Hout.
    destruct (np_stack mel_specs) as [stacked|e]; [|done]. cbn [mbind Result_bind] in Hout.
    by injection Hout as <-.
  - intros HT. destruct (call_Ok self features Hne Hal HT) as (m' & Ms & _ & _ & _ & Hok).
    eauto.
Qed.

(** C8.  With the default [target_length], every waveform enters the
    spectrogram step with exactly 262144 samples, the spectrogram has 513
    frames, the test of line 64 holds and the test of line 66 does not: the
    frames are cut to the first 512 and no zero row is appended. *)
Theorem default_budget_always_truncates (audio : list sample) :
  exists y P D,
    fit_audio default_target_length audio = Ok y /\
    Z.of_nat (length y) = 262144%Z /\
    melspectrogram mel_params y = Ok P /\ has_shape2 80 513 P /\
    log_mel y = Ok D /\ length D = 513 /\
    (default_target_length <? length D) = true /\
    (length D <? default_target_length) = false /\
    fit_frames default_target_length D = Ok (take 512 D).
Proof.
  unfold default_target_length.
  destruct (clip_frames 512 audio) as (y & D & Hy & Hlen & HD & [Hrows Hcols] & HM); [lia|].
  assert (Hney : y <> []) by (intros ->; cbn [length] in Hlen; lia).
  destruct (mel_params_melspectrogram y Hney) as (P & HP & HshP).
  rewrite Hlen, Nat.div_mul in HshP by done.
  exists y, P, D. split; [done|]. split; [rewrite Hlen; lia|]. split; [done|].
  split; [exact HshP|]. split; [done|]. split; [exact Hrows|]. rewrite Hrows.
  split; [by apply Nat.ltb_lt; lia|]. split; [by apply Nat.ltb_ge; lia|done].
Qed.

(** C9.  On an empty list of features the call raises the [ValueError] of
    [max()] on an empty sequence, whatever the collator: there is no
    output. *)
Theorem empty_batch_fails (self : CustomDataCollator) :
  call self [] = Raise (ValueError "max() arg is an empty sequence") /\
  ~ exists out, call self [] = Ok out.
Proof. split; [reflexivity|]. by intros [out Hout]. Qed.

End CollatorClaims.

(** ** Determinism and statelessness, on the store *)

Section StoreClaims.
Context {Num : Numeric}.

Lemma feature_at_prefix (h0 h : list pyobj) l f :
  h0 `prefix_of` h -> feature_at h0 l = Some f -> feature_at h l = Some f.
Proof.
  intros Hp Hf. destruct (feature_at_inv _ _ _ Hf) as (txt & Hl & Hi & Hm & Ha).
  assert (Htxt : text f = txt).
  { unfold feature_at in Hf. rewrite Hl, Hi, Hm, Ha in Hf. by injection Hf as <-. }
  unfold feature_at. rewrite (prefix_lookup _ _ _ _ Hp Hl).
  rewrite (keeps_ints_prefix _ _ Hp _ _ Hi), (keeps_ints_prefix _ _ Hp _ _ Hm),
    (floats_at_prefix _ _ _ _ Hp Ha).
  destruct f; simpl in *. by subst.
Qed.

Lemma features_at_prefix (h0 h : list pyobj) l fs :
  h0 `prefix_of` h -> features_at h0 l = Some fs -> features_at h l = Some fs.
Proof.
  intros Hp. unfold features_at.
  destruct (h0 !! l) as [[| |refs| | | |]|] eqn:E; try done.
  rewrite (prefix_lookup _ _ _ _ Hp E), !all_at_Forall2. intros Hfs.
  eapply Forall2_impl; [exact Hfs|]. intros r f. by apply feature_at_prefix.
Qed.

(** C6.  Two calls whose collators have the same fields and whose feature
    lists hold equal features return equal results (the same batch, or the
    same exception), wherever the objects live and whatever else the store
    holds; and a call leaves every object of the store it started from as it
    was, in particular the collator's fields and the features. *)
Theorem call_deterministic_and_stateless
    (h1 h2 : list pyobj) (self1 features1 self2 features2 : loc)
    (c : CustomDataCollator) (fs : list Feature) :
  collator_at h1 self1 = Some c -> features_at h1 features1 = Some fs ->
  collator_at h2 self2 = Some c -> features_at h2 features2 = Some fs ->
  (call_store self1 features1 h1).1 = (call_store self2 features2 h2).1 /\
  (call_store self1 features1 h1).1 = call c fs /\
  let h1' := (call_store self1 features1 h1).2 in
  (forall l o, h1 !! l = Some o -> h1' !! l = Some o) /\
  collator_at h1' self1 = Some c /\
  features_at h1' features1 = Some fs.
Proof.
  intros Hc1 Hf1 Hc2 Hf2.
  destruct (call_store_refines h1 self1 features1 c fs Hc1 Hf1) as (h1' & Hrun1 & Hp1).
  destruct (call_store_refines h2 self2 features2 c fs Hc2 Hf2) as (h2' & Hrun2 & Hp2).
  rewrite Hrun1, Hrun2. cbn [fst snd]. split; [done|]. split; [done|].
  split; [|split].
  - intros l o. by apply prefix_lookup.
  - by eapply collator_at_prefix.
  - by eapply features_at_prefix.
Qed.

End StoreClaims.

(** ** Loading the audio and preparing the dataset *)

Section DatasetClaims.
Context {Num : Numeric} {W : World}.

Lemma load_audio_cases (file_path dataset_dir : string) (max_duration : QArith_base.Q) :
  let full_path := os_path_join dataset_dir file_path in
  (load_audio file_path dataset_dir max_duration).1 =
    if negb (os_path_exists full_path) then None
    else match librosa_load full_path 16000%Z max_duration with
         | Ok ([], _) => None
         | Ok (x :: w, _) => Some (normalize (x :: w))
         | Raise _ => None
         end.
Proof.
  cbv zeta. unfold load_audio.
  destruct (os_path_exists _); [|done]. cbn [negb].
  destruct (librosa_load _ _ _) as [[[|x w] rate]|e]; done.
Qed.

Lemma prepare_dataset_skips dataset_dir processor (before after : list Row) row :
  (load_audio (Audio_Path row) dataset_dir default_max_duration).1 = None ->
  (prepare_dataset (before ++ row :: after) dataset_dir processor).1 =
  (prepare_dataset (before ++ after) dataset_dir processor).1.
Proof.
  intros Hrow. rewrite !prepare_dataset_data, !omap_app. cbn [omap list_omap].
  by rewrite (proj2 (item_of_row_None dataset_dir processor row) Hrow).
Qed.

Lemma load_audio_None_iff (file_path dataset_dir : string) (max_duration : QArith_base.Q) :
  let full_path := os_path_join dataset_dir file_path in
  (load_audio file_path dataset_dir max_duration).1 = None <->
    os_path_exists full_path = false \/
    (exists e, librosa_load full_path 16000%Z max_duration = Raise e) \/
    (exists rate, librosa_load full_path 16000%Z max_duration = Ok ([], rate)).
Proof.
  intros full_path. rewrite load_audio_cases. fold full_path.
  destruct (os_path_exists full_path); cbn [negb]; [|by split; [left|]].
  destruct (librosa_load full_path 16000%Z max_duration) as [[[|x w] rate]|e]; split.
  - intros _. right. right. by exists rate.
  - done.
  - done.
  - intros [Hex|[[e He]|[r Hr]]]; done.
  - intros _. right. left. by exists e.
  - done.
Qed.

Lemma load_audio_Some (file_path dataset_dir : string) (max_duration : QArith_base.Q)
    (w : list sample) (rate : Z) :
  let full_path := os_path_join dataset_dir file_path in
  os_path_exists full_path = true ->
  librosa_load full_path 16000%Z max_duration = Ok (w, rate) -> w <> [] ->
  (load_audio file_path dataset_dir max_duration).1 = Some (normalize w).
Proof.
  intros full_path Hex Hload Hne.
  rewrite load_audio_cases. fold full_path. rewrite Hex, Hload. cbn [negb].
  by destruct w.
Qed.

(** A row that loads is kept, and with it a dataset is returned. *)
Lemma prepare_dataset_keeps dataset_dir processor (df : list Row) row item :
  row ∈ df -> item_of_row dataset_dir processor row = Some item ->
  exists ds, (prepare_dataset df dataset_dir processor).1 = Ok ds /\ item ∈ ds.
Proof.
  intros Hrow Hitem. rewrite prepare_dataset_data.
  assert (Hin : item ∈ omap (item_of_row dataset_dir processor) df)
    by (apply list_elem_of_omap; eauto).
  destruct (omap _ df) as [|x items]; [by apply elem_of_nil in Hin|]. eauto.
Qed.

(** C10.  [prepare_dataset] raises [ValueError] exactly when no row of the
    table has its audio loaded (none does when the table is empty);
    otherwise it returns a dataset with as many items as there are rows
    whose audio was loaded. *)
Theorem prepare_dataset_ValueError_iff (df : list Row) (dataset_dir : string)
    (processor : Processor) :
  let loads row := (load_audio (Audio_Path row) dataset_dir default_max_duration).1 in
  let result := (prepare_dataset df dataset_dir processor).1 in
  ((exists msg, result = Raise (ValueError msg)) <->
     Forall (fun row => loads row = None) df) /\
  (Forall (fun row => loads row = None) df ->
     result = Raise (ValueError "No data was successfully processed")) /\
  (~ Forall (fun row => loads row = None) df ->
     exists ds, result = Ok ds /\
       length ds = length (filter (fun row => is_Some (loads row)) df)).
Proof.
  cbv zeta. rewrite prepare_dataset_data.
  pose proof (omap_nil_Forall (item_of_row dataset_dir processor) df) as Hnil.
  pose proof (length_omap_filter (item_of_row dataset_dir processor) df) as Hlen.
  assert (Hall : Forall (fun row => item_of_row dataset_dir processor row = None) df <->
                 Forall (fun row =>
                   (load_audio (Audio_Path row) dataset_dir default_max_duration).1 = None) df).
  { split; intros HF; (eapply Forall_impl; [exact HF|]); intros row; apply item_of_row_None. }
  assert (Hfilter :
    filter (fun row => is_Some (item_of_row dataset_dir processor row)) df =
    filter (fun row => is_Some
      (load_audio (Audio_Path row) dataset_dir default_max_duration).1) df).
  { apply list_filter_iff. intros row. unfold item_of_row.
    destruct (load_audio _ _ _).1 as [audio|]; simpl.
    - split; intros _; eauto.
    - split; intros [? ?]; done. }
  rewrite Hfilter in Hlen. clear Hfilter.
  destruct (omap (item_of_row dataset_dir processor) df) as [|item items].
  - assert (Hnone : Forall (fun row =>
      (load_audio (Audio_Path row) dataset_dir default_max_duration).1 = None) df)
      by by apply Hall, Hnil.
    split; [split; [done|eauto]|]. split; [done|]. by intros Hsome.
  - assert (Hsome : ~ Forall (fun row =>
      (load_audio (Audio_Path row) dataset_dir default_max_duration).1 = None) df).
    { intros Hnone. apply Hall, Hnil in Hnone. done. }
    split; [split; [by intros [msg ?]|done]|]. split; [done|].
    intros _. by exists (item :: items).
Qed.

End DatasetClaims.

(** ** The waveform [load_audio] returns *)

Section NormalizedAudio.
Context {Num : Numeric} {W : World} {PA : PeakArithmetic} {PL : PeakLaws}.

Lemma foldl_fmaximum_fdiv (m a : sample) (l : list sample) :
  flt m tiny = false ->
  foldl fmaximum (fdiv a m) (map (fun y => fdiv y m) l) = fdiv (foldl fmaximum a l) m.
Proof.
  intros Hm. revert a. induction l as [|b l IH]; intros a; [done|].
  cbn [map foldl]. by rewrite fmaximum_fdiv, IH.
Qed.

Lemma peak_scaled (m : sample) (S : list sample) :
  S <> [] -> flt m tiny = false ->
  peak (map (fun s => fdiv s m) S) = fdiv (peak S) m.
Proof.
  intros Hne Hm. unfold peak. destruct S as [|x S]; [done|].
  cbn [map]. rewrite fabs_fdiv by done.
  rewrite map_map.
  rewrite (map_ext (fun s => fabs (fdiv s m)) (fun s => fdiv (fabs s) m))
    by (intros s; by apply fabs_fdiv).
  rewrite <- (map_map fabs (fun y => fdiv y m)).
  by apply foldl_fmaximum_fdiv.
Qed.

Lemma normalize_scales (S : list sample) :
  S <> [] ->
  normalize S = map (fun s => fdiv s (if flt (peak S) tiny then one else peak S)) S /\
  (flt (peak S) tiny = false -> peak (normalize S) = one) /\
  (flt (peak S) tiny = true -> normalize S = S).
Proof.
  intros Hne. rewrite normalize_librosa by done. unfold librosa_normalize. cbv zeta.
  split; [done|]. split; intros Hsmall; rewrite Hsmall.
  - rewrite peak_scaled by done. by apply fdiv_same.
  - rewrite (map_ext _ (fun s => s)) by apply fdiv_one. apply map_id.
Qed.


End NormalizedAudio.

(** ** The statements at the small instance *)

Lemma collator_output_shapes_witness :
  Demo.features <> [] /\ Forall aligned Demo.features /\
  exists out max_len,
    call (CustomDataCollator_init Demo.the_processor) Demo.features = Ok out /\
    is_max_length Demo.features max_len /\
    has_shape3 (length Demo.features) 512 80 (batch_labels out) /\
    has_shape2 (length Demo.features) max_len (batch_input_ids out) /\
    has_shape2 (length Demo.features) max_len (batch_attention_mask out).
Proof.
  assert (Hne : Demo.features <> []) by discriminate.
  assert (Hal : Forall aligned Demo.features) by (repeat constructor).
  split; [exact Hne|]. split; [exact Hal|].
  exact (collator_output_shapes Demo.the_processor Demo.features Hne Hal).
Defined.

Lemma spectrogram_pipeline_witness :
  0 < target_length (CustomDataCollator_init Demo.the_processor) /\
  exists Ms,
    for_loop (mel_step 512) (map labels Demo.features) [] = Ok Ms /\
    length Ms = 2.
Proof.
  assert (HT : 0 < target_length (CustomDataCollator_init Demo.the_processor))
    by (unfold CustomDataCollator_init, default_target_length; cbn [target_length]; lia).
  split; [exact HT|].
  destruct (spectrogram_pipeline (CustomDataCollator_init Demo.the_processor)
              Demo.features HT) as (Ms & Hloop & Hrows & _).
  exists Ms. split; [exact Hloop|].
  symmetry. exact (Forall2_length _ _ _ Hrows).
Defined.

Lemma frames_fitted_to_budget_witness :
  Forall (fun row => length row = 80) [replicate 80 (zero (Numeric := Demo.Z_numeric))] /\
  exists M,
    fit_frames default_target_length [replicate 80 (zero (Numeric := Demo.Z_numeric))] = Ok M /\
    has_shape2 512 80 M /\
    M = (if 512 <? length [replicate 80 (zero (Numeric := Demo.Z_numeric))]
         then take 512 [replicate 80 zero]
         else [replicate 80 zero] ++
              replicate (512 - length [replicate 80 (zero (Numeric := Demo.Z_numeric))])
                        (replicate 80 zero)).
Proof.
  assert (Hw : Forall (fun row => length row = 80)
                 [replicate 80 (zero (Numeric := Demo.Z_numeric))])
    by (repeat constructor).
  split; [exact Hw|].
  exact (frames_fitted_to_budget _ Hw).
Defined.

Lemma tokens_right_padded_witness :
  Demo.features <> [] /\ Forall aligned Demo.features /\
  exists max_len padded_input_ids,
    is_max_length Demo.features max_len /\
    padded_input_ids !! 1 = Some ([4; 7; 2] ++ replicate (max_len - 3) 1)%Z /\
    forall out,
      call (CustomDataCollator_init Demo.the_processor) Demo.features = Ok out ->
      batch_input_ids out = padded_input_ids.
Proof.
  assert (Hne : Demo.features <> []) by discriminate.
  assert (Hal : Forall aligned Demo.features) by (repeat constructor).
  split; [exact Hne|]. split; [exact Hal|].
  destruct (tokens_right_padded (CustomDataCollator_init Demo.the_processor)
              Demo.features Hne Hal)
    as (max_len & rows & masks & Hmax & _ & Hrows & Hout & _).
  exists max_len, rows. split; [exact Hmax|]. split.
  - destruct (Hrows 1 _ eq_refl) as (ids' & mask' & Hids & _ & Heq & _).
    rewrite Hids, Heq. reflexivity.
  - intros out Hcall. exact (proj1 (Hout out Hcall)).
Defined.

Lemma call_deterministic_and_stateless_witness :
  collator_at Demo.store 2 = Some (CustomDataCollator_init Demo.the_processor) /\
  (call_store 2 7 Demo.store).1 =
    call (CustomDataCollator_init Demo.the_processor)
      [ {| input_ids := [4; 20; 2]%Z; attention_mask := [1; 1; 1]%Z;
           labels := Demo.samples [3; -5]%Z; text := "a" |} ] /\
  forall l o, Demo.store !! l = Some o -> (call_store 2 7 Demo.store).2 !! l = Some o.
Proof.
  assert (Hc : collator_at Demo.store 2 = Some (CustomDataCollator_init Demo.the_processor))
    by reflexivity.
  assert (Hf : features_at Demo.store 7 =
    Some [ {| input_ids := [4; 20; 2]%Z; attention_mask := [1; 1; 1]%Z;
              labels := Demo.samples [3; -5]%Z; text := "a" |} ]) by reflexivity.
  split; [exact Hc|].
  destruct (call_deterministic_and_stateless Demo.store Demo.store 2 7 2 7 _ _ Hc Hf Hc Hf)
    as (_ & Hcall & Hframe & _ & _).
  split; [exact Hcall|exact Hframe].
Defined.

Lemma scaled_peak_laws : PeakLaws (Num := Demo.scaled_numeric) (PA := Demo.scaled_peak).
Proof.
  split.
  - intros S _. reflexivity.
  - intros x. apply Z.quot_1_r.
  - intros m Hm. apply Z.ltb_ge in Hm. cbn in *. apply Z.quot_same. lia.
  - intros x m Hm. apply Z.ltb_ge in Hm. cbn in *.
    rewrite <- Z.quot_abs by lia. f_equal. lia.
  - intros a b m Hm. apply Z.ltb_ge in Hm. cbn in *.
    destruct (Z.le_ge_cases a b) as [Hab|Hab].
    + rewrite (Z.max_r a b) by done. apply Z.max_r, Z.quot_le_mono; lia.
    + rewrite (Z.max_l a b) by done. apply Z.max_l, Z.quot_le_mono; lia.
Qed.



(** ** Further properties of the collator *)

Section CollatorMore.
Context {Num : Numeric}.

Lemma is_max_length_unique (features : list Feature) (m m' : nat) :
  is_max_length features m -> is_max_length features m' -> m = m'.
Proof.
  intros [Hle (f & Hf & Hm)] [Hle' (f' & Hf' & Hm')].
  specialize (Hle f' Hf'). specialize (Hle' f Hf). lia.
Qed.

Lemma torch_tensor2_cases {A} (rows : list (list A)) :
  torch_tensor2 rows = Ok rows \/
  torch_tensor2 rows = Raise (ValueError "expected sequence of equal length").
Proof.
  destruct rows as [|r rest]; [by left|]. simpl.
  destruct (forallb _ rest); [by left|by right].
Qed.

(** X1.  Whatever positive [target_length] the collator was built with, a
    non-empty batch of aligned features is returned with a spectrogram
    tensor of shape (batch, target_length, 80) and token tensors of shape
    (batch, max_len). *)
Theorem shapes_for_any_target_length (self : CustomDataCollator) (features : list Feature) :
  features <> [] -> Forall aligned features -> 0 < target_length self ->
  exists out max_len,
    call self features = Ok out /\
    is_max_length features max_len /\
    has_shape3 (length features) (target_length self) 80 (batch_labels out) /\
    has_shape2 (length features) max_len (batch_input_ids out) /\
    has_shape2 (length features) max_len (batch_attention_mask out).
Proof.
  intros Hne Hal HT.
  destruct (call_Ok self features Hne Hal HT) as (m & Ms & Hmax & Hclip & Hsh & Hcall).
  eexists _, m. split; [exact Hcall|]. split; [done|].
  cbn [batch_labels batch_input_ids batch_attention_mask].
  apply Forall2_length in Hclip. rewrite length_map in Hclip.
  split; [|split].
  - split; [by rewrite length_map|].
    apply Forall_forall. intros M' HM'.
    apply list_elem_of_fmap in HM' as (M & -> & HM).
    rewrite Forall_forall in Hsh. apply has_shape2_map. by apply (Hsh M).
  - split; [by rewrite length_map|]. apply padded_ids_rect, Hmax.
  - split; [by rewrite length_map|]. by apply padded_mask_rect; [apply Hmax|].
Qed.

(** X2.  For every positive [target_length] T and every waveform, the
    spectrogram has T + 1 frames: line 65 always cuts the last frame off
    and the zero rows of lines 66-68 are never appended. *)
Theorem zero_row_padding_is_dead (T : nat) (audio : list sample) :
  0 < T ->
  exists y D,
    fit_audio T audio = Ok y /\ length y = T * 512 /\
    log_mel y = Ok D /\ length D = T + 1 /\
    (T <? length D) = true /\ (length D <? T) = false /\
    fit_frames T D = Ok (take T D).
Proof.
  intros HT.
  destruct (clip_frames T audio HT) as (y & D & Hy & Hlen & HD & [Hrows Hcols] & HM).
  exists y, D. split; [done|]. split; [done|]. split; [done|].
  split; [lia|]. rewrite Hrows.
  split; [apply Nat.ltb_lt; lia|]. split; [apply Nat.ltb_ge; lia|done].
Qed.

Lemma mel_step_zero (mel_specs : list matrix) (audio : list sample) :
  exists e, mel_step 0 mel_specs audio = Raise e.
Proof.
  unfold mel_step.
  assert (Hfit : fit_audio 0 audio = Ok []).
  { unfold fit_audio. cbn [Nat.mul]. destruct audio as [|x audio]; [done|].
    by cbn [length Nat.ltb Nat.leb take]. }
  rewrite Hfit. cbn [mbind Result_bind]. eexists. reflexivity.
Qed.

(** X3.  A collator built with [target_length = 0] never returns a batch:
    every call raises. *)
Theorem target_length_zero_always_raises (self : CustomDataCollator)
    (features : list Feature) :
  target_length self = 0 -> exists e, call self features = Raise e.
Proof.
  intros HT. destruct features as [|f features]; [by eexists|].
  destruct (call_tokens self (f :: features)) as (m & _ & Hcall); [done|].
  rewrite Hcall, HT.
  destruct (torch_tensor2 _) as [t|e]; [|by eexists].
  cbn [mbind Result_bind map for_loop].
  destruct (mel_step_zero [] (labels f)) as [e He]. rewrite He. by eexists.
Qed.

(** X4.  With a positive [target_length], the call on a non-empty batch
    returns exactly when the padded attention masks all have one length;
    otherwise it raises [ValueError] (from [torch.tensor], line 31). *)
Theorem call_returns_iff_masks_rectangular (self : CustomDataCollator)
    (features : list Feature) (max_len : nat) :
  0 < target_length self -> features <> [] -> is_max_length features max_len ->
  let rectangular :=
    exists c, Forall (fun f =>
      length (attention_mask f) + (max_len - length (input_ids f)) = c) features in
  ((exists out, call self features = Ok out) <-> rectangular) /\
  (~ rectangular ->
     call self features = Raise (ValueError "expected sequence of equal length")).
Proof.
  intros HT Hne Hmax rectangular.
  destruct (call_nonempty self features Hne HT) as (m & Ms & Hm & _ & _ & _ & Hcall).
  assert (m = max_len) as -> by by eapply is_max_length_unique.
  assert (Hrect : forall c,
    Forall (fun row => length row = c) (map (padded_mask max_len) features) <->
    Forall (fun f => length (attention_mask f) + (max_len - length (input_ids f)) = c)
           features).
  { intros c. rewrite Forall_map. apply Forall_iff. intros f. unfold padded_mask.
    by rewrite length_app, length_replicate. }
  assert (Hiff : (exists out, call self features = Ok out) <-> rectangular).
  { split.
    - intros [out Hout]. rewrite Hcall in Hout.
      destruct (torch_tensor2 _) as [t|e] eqn:Ht; [|done].
      apply torch_tensor2_Ok in Ht as [_ Hall]. eexists. apply Hrect, Hall.
    - intros [c Hc]. rewrite Hcall.
      rewrite (torch_tensor2_rect _ c) by by apply Hrect. by eexists. }
  split; [exact Hiff|].
  intros Hnot. rewrite Hcall.
  destruct (torch_tensor2_cases (map (padded_mask max_len) features)) as [Hok|Herr].
  - exfalso. apply Hnot, Hiff. rewrite Hcall, Hok. by eexists.
  - by rewrite Herr.
Qed.

End CollatorMore.

Section WhatTheCollatorReads.
Context {Num : Numeric}.

Lemma fit_audio_within_budget (T : nat) (audio : list sample) :
  fit_audio T audio = Ok (within_budget T audio).
Proof.
  destruct (fit_audio_spec T audio) as (y & Hy & Hlen & Hlong & Hshort).
  rewrite Hy. f_equal. unfold within_budget.
  destruct (Nat.lt_ge_cases (T * 512) (length audio)) as [Hlt|Hge].
  - rewrite (Hlong Hlt). replace (T * 512 - length audio) with 0 by lia.
    by rewrite app_nil_r.
  - rewrite (Hshort Hge). rewrite take_ge; [done|].
    rewrite length_app, length_replicate. lia.
Qed.

Lemma within_budget_tail (T : nat) (audio extra : list sample) :
  T * 512 <= length audio -> within_budget T (audio ++ extra) = within_budget T audio.
Proof.
  intros Hlen. unfold within_budget.
  rewrite length_app.
  replace (T * 512 - (length audio + length extra)) with 0 by lia.
  replace (T * 512 - length audio) with 0 by lia.
  rewrite !app_nil_r. by rewrite take_app_le.
Qed.

Lemma within_budget_silence (T k : nat) (audio : list sample) :
  within_budget T (audio ++ replicate k zero) = within_budget T audio.
Proof.
  destruct (Nat.le_ge_cases (T * 512) (length audio)) as [Hle|Hge];
    [by apply within_budget_tail|].
  unfold within_budget. rewrite length_app, length_replicate.
  rewrite (take_ge (audio ++ replicate (T * 512 - length audio) zero))
    by (rewrite length_app, length_replicate; lia).
  rewrite <- app_assoc, <- replicate_add.
  rewrite take_app_ge by done. rewrite take_replicate. f_equal. f_equal. lia.
Qed.

Lemma mel_step_within_budget (T : nat) (mel_specs : list matrix) (a b : list sample) :
  within_budget T a = within_budget T b ->
  mel_step T mel_specs a = mel_step T mel_specs b.
Proof.
  intros Hab. unfold mel_step. by rewrite !fit_audio_within_budget, Hab.
Qed.

Lemma for_loop_within_budget (T : nat) (l1 l2 : list (list sample)) (acc : list matrix) :
  Forall2 (fun a b => within_budget T a = within_budget T b) l1 l2 ->
  for_loop (mel_step T) l1 acc = for_loop (mel_step T) l2 acc.
Proof.
  intros Hall. revert acc. induction Hall as [|a b l1 l2 Hab _ IH]; intros acc; [done|].
  cbn [for_loop]. rewrite (mel_step_within_budget T acc a b Hab).
  destruct (mel_step T acc b) as [acc'|e]; [|done]. cbn [mbind Result_bind]. apply IH.
Qed.

Lemma clip_functional (T : nat) (a b : list sample) (M M' : matrix) :
  within_budget T a = within_budget T b -> clip T a M -> clip T b M' -> M = M'.
Proof.
  intros Hab (y & D & Hy & HD & HM) (y' & D' & Hy' & HD' & HM').
  rewrite fit_audio_within_budget in Hy, Hy'. rewrite Hab in Hy.
  rewrite Hy in Hy'. injection Hy' as <-. rewrite HD in HD'. injection HD' as <-.
  rewrite HM in HM'. by injection HM' as <-.
Qed.

(** X5.  The spectrogram of a clip does not depend on the batch it is in:
    two clips that agree on their first [target_length * 512] samples
    (short clips being extended with zeros) get the same rows of the labels
    tensor, in whatever batches and at whatever positions they are. *)
Theorem spectrogram_independent_of_batch (self : CustomDataCollator)
    (features features' : list Feature) (out out' : Batch) (i j : nat) (f g : Feature) :
  0 < target_length self ->
  call self features = Ok out -> call self features' = Ok out' ->
  features !! i = Some f -> features' !! j = Some g ->
  within_budget (target_length self) (labels f) =
    within_budget (target_length self) (labels g) ->
  exists rows, batch_labels out !! i = Some rows /\ batch_labels out' !! j = Some rows.
Proof.
  intros HT Hout Hout' Hi Hj Hfg.
  assert (Hrow : forall fs o k h, call self fs = Ok o -> fs !! k = Some h ->
            exists M, clip (target_length self) (labels h) M /\
                      batch_labels o !! k = Some (map (map to_float32) M)).
  { intros fs o k h Ho Hk. assert (Hne : fs <> []) by by destruct fs.
    destruct (call_nonempty self fs Hne HT) as (m & Ms & _ & _ & Hclip & _ & Hcall).
    rewrite Hcall in Ho. destruct (torch_tensor2 _) as [t|e]; [|done].
    cbn [mbind Result_bind] in Ho. injection Ho as <-. cbn [batch_labels].
    apply Forall2_map_l in Hclip.
    destruct (Forall2_lookup_l _ _ _ _ _ Hclip Hk) as (M & HM & Hc).
    exists M. split; [done|]. unfold matrix in *. by rewrite list_lookup_fmap, HM. }
  destruct (Hrow _ _ _ _ Hout Hi) as (M & Hc & HM).
  destruct (Hrow _ _ _ _ Hout' Hj) as (M' & Hc' & HM').
  rewrite (clip_functional _ _ _ _ _ Hfg Hc Hc') in HM. eauto.
Qed.

Lemma call_congruence (self : CustomDataCollator) (features features' : list Feature) :
  map input_ids features = map input_ids features' ->
  map attention_mask features = map attention_mask features' ->
  Forall2 (fun a b => within_budget (target_length self) a =
                      within_budget (target_length self) b)
          (map labels features) (map labels features') ->
  call self features = call self features'.
Proof.
  intros Hids Hmask Hlabs. unfold call. cbv zeta. rewrite Hids, Hmask.
  by rewrite (for_loop_within_budget _ _ _ [] Hlabs).
Qed.

(** X6.  The call reads of a feature its token ids, its mask and the part
    of the waveform within the budget, nothing else: batches of features
    that agree on these give the same result, batch or exception.  The
    [text] field, the samples after the first [target_length * 512], and
    zeros appended to a waveform make no difference. *)
Theorem call_reads_only_within_budget (self : CustomDataCollator)
    (features features' : list Feature) :
  Forall2 (same_for_collator (target_length self)) features features' ->
  call self features = call self features' /\
  (forall audio extra, target_length self * 512 <= length audio ->
     within_budget (target_length self) (audio ++ extra) =
     within_budget (target_length self) audio) /\
  (forall audio k,
     within_budget (target_length self) (audio ++ replicate k zero) =
     within_budget (target_length self) audio).
Proof.
  intros Hsame. split; [|split].
  - apply call_congruence.
    + induction Hsame as [|f g fs gs (Hi & _ & _) _ IH]; [done|]. simpl. by rewrite Hi, IH.
    + induction Hsame as [|f g fs gs (_ & Hm & _) _ IH]; [done|]. simpl. by rewrite Hm, IH.
    + induction Hsame as [|f g fs gs (_ & _ & Hl) _ IH]; simpl; constructor; done.
  - intros audio extra. apply within_budget_tail.
  - intros audio k. apply within_budget_silence.
Qed.

Lemma filter_ones_replicate (n m : nat) :
  filter (fun b : Z => b = 1%Z) (replicate n 1%Z ++ replicate m 0%Z) = replicate n 1%Z.
Proof.
  rewrite filter_app.
  assert (H0 : filter (fun b : Z => b = 1%Z) (replicate m 0%Z) = []).
  { induction m as [|m IH]; [done|]. simpl. by rewrite filter_cons_False. }
  assert (H1 : filter (fun b : Z => b = 1%Z) (replicate n 1%Z) = replicate n 1%Z).
  { induction n as [|n IH]; [done|]. simpl. rewrite filter_cons_True by done. by rewrite IH. }
  by rewrite H0, H1, app_nil_r.
Qed.

(** X7.  When the masks handed in are all ones (one per token), the token
    sequences can be read back from the batch: in row [i] the mask is ones
    on the tokens and zeros on the padding, and the first (number of ones)
    entries of the ids row are the original tokens, also when the pad id
    occurs among them. *)
Theorem tokens_recovered_from_mask (self : CustomDataCollator) (features : list Feature) :
  features <> [] -> 0 < target_length self ->
  Forall (fun f => attention_mask f = replicate (length (input_ids f)) 1%Z) features ->
  exists out max_len,
    call self features = Ok out /\
    forall i f, features !! i = Some f ->
      exists ids_row mask_row,
        batch_input_ids out !! i = Some ids_row /\
        batch_attention_mask out !! i = Some mask_row /\
        mask_row = replicate (length (input_ids f)) 1%Z ++
                   replicate (max_len - length (input_ids f)) 0%Z /\
        take (length (filter (fun b : Z => b = 1%Z) mask_row)) ids_row = input_ids f.
Proof.
  intros Hne HT Hones.
  assert (Hal : Forall aligned features).
  { eapply Forall_impl; [exact Hones|]. intros f Hf. unfold aligned.
    by rewrite Hf, length_replicate. }
  destruct (call_Ok self features Hne Hal HT) as (m & Ms & Hmax & _ & _ & Hcall).
  eexists _, m. split; [exact Hcall|].
  intros i f Hi. cbn [batch_input_ids batch_attention_mask].
  assert (Hf : f ∈ features) by (apply list_elem_of_lookup; eauto).
  rewrite Forall_forall in Hones. specialize (Hones f Hf).
  eexists _, _. rewrite !list_lookup_fmap, Hi. cbn [fmap option_fmap option_map].
  split; [done|]. split; [done|]. unfold padded_mask, padded_ids. rewrite Hones.
  split; [done|].
  rewrite filter_ones_replicate, length_replicate. by rewrite take_app_length.
Qed.

(** X8.  A batch whose token sequences all have the same length (a batch
    of one feature, for instance) is returned without any padding: the
    token tensors are the sequences and the masks as they were handed in. *)
Theorem equal_lengths_need_no_padding (self : CustomDataCollator)
    (features : list Feature) (n : nat) :
  features <> [] -> 0 < target_length self ->
  Forall (fun f => length (input_ids f) = n /\ length (attention_mask f) = n) features ->
  exists out,
    call self features = Ok out /\
    batch_input_ids out = map input_ids features /\
    batch_attention_mask out = map attention_mask features.
Proof.
  intros Hne HT Hlen.
  assert (Hal : Forall aligned features).
  { eapply Forall_impl; [exact Hlen|]. intros f [Hi Hm]. unfold aligned. lia. }
  destruct (call_Ok self features Hne Hal HT) as (m & Ms & Hmax & _ & _ & Hcall).
  assert (m = n) as ->.
  { destruct Hmax as [_ (f & Hf & Hm)]. rewrite Forall_forall in Hlen.
    destruct (Hlen f Hf). lia. }
  eexists. split; [exact Hcall|]. cbn [batch_input_ids batch_attention_mask].
  rewrite Forall_forall in Hlen.
  split; apply map_ext_in; intros f Hf; apply list_elem_of_In in Hf;
    destruct (Hlen f Hf) as [Hi Hm]; unfold padded_ids, padded_mask;
    rewrite Hi, Nat.sub_diag; apply app_nil_r.
Qed.

End WhatTheCollatorReads.

(** ** Further properties of the dataset preparation *)

Section DatasetMore.
Context {Num : Numeric} {W : World}.

Lemma omap_item_of_row dataset_dir processor (df : list Row) :
  Forall2 (fun row item =>
      text item = Text row /\
      input_ids item = enc_input_ids (processor_call processor (Text row) 256) /\
      attention_mask item = enc_attention_mask (processor_call processor (Text row) 256) /\
      (load_audio (Audio_Path row) dataset_dir default_max_duration).1 = Some (labels item))
    (filter (fun row =>
       is_Some (load_audio (Audio_Path row) dataset_dir default_max_duration).1) df)
    (omap (item_of_row dataset_dir processor) df).
Proof.
  induction df as [|row df IH]; [constructor|].
  rewrite filter_cons. cbn [omap list_omap]. unfold item_of_row at 1.
  destruct (load_audio (Audio_Path row) dataset_dir default_max_duration).1 as [audio|] eqn:E.
  - rewrite decide_True by eauto. cbn [mbind option_bind]. by constructor.
  - rewrite decide_False by (by intros [? ?]). exact IH.
Qed.

Lemma prepare_dataset_Ok df dataset_dir processor ds :
  (prepare_dataset df dataset_dir processor).1 = Ok ds ->
  ds = omap (item_of_row dataset_dir processor) df.
Proof.
  rewrite prepare_dataset_data. destruct (omap _ df); [done|]. by intros [= <-].
Qed.

(** X9.  The dataset returned holds one item per row whose audio loaded, in
    the order of the table: the item carries the text of its row, the ids
    and the mask the processor gives for that text (with [max_length] 256)
    and the waveform [load_audio] returned for its path. *)
Theorem dataset_items_follow_the_table (df : list Row) (dataset_dir : string)
    (processor : Processor) (ds : list Feature) :
  (prepare_dataset df dataset_dir processor).1 = Ok ds ->
  Forall2 (fun row item =>
      text item = Text row /\
      input_ids item = enc_input_ids (processor_call processor (Text row) 256) /\
      attention_mask item = enc_attention_mask (processor_call processor (Text row) 256) /\
      (load_audio (Audio_Path row) dataset_dir default_max_duration).1 = Some (labels item))
    (filter (fun row =>
       is_Some (load_audio (Audio_Path row) dataset_dir default_max_duration).1) df)
    ds.
Proof. intros Hds. rewrite (prepare_dataset_Ok _ _ _ _ Hds). apply omap_item_of_row. Qed.

(** X10.  When the processor returns masks as long as the ids, every
    non-empty batch drawn from the dataset that [prepare_dataset] returned
    is collated by [CustomDataCollator(processor)], as [main] builds it,
    into tensors of shape (batch, 512, 80) and (batch, max_len). *)
Theorem dataset_batches_collate (df : list Row) (dataset_dir : string)
    (processor : Processor) (ds batch : list Feature) :
  (forall txt n, length (enc_attention_mask (processor_call processor txt n)) =
                 length (enc_input_ids (processor_call processor txt n))) ->
  (prepare_dataset df dataset_dir processor).1 = Ok ds ->
  batch <> [] -> (forall f, f ∈ batch -> f ∈ ds) ->
  exists out max_len,
    call (CustomDataCollator_init processor) batch = Ok out /\
    is_max_length batch max_len /\
    has_shape3 (length batch) 512 80 (batch_labels out) /\
    has_shape2 (length batch) max_len (batch_input_ids out) /\
    has_shape2 (length batch) max_len (batch_attention_mask out).
Proof.
  intros Htok Hds Hne Hsub.
  assert (Hal : Forall aligned ds).
  { pose proof (omap_item_of_row dataset_dir processor df) as Hitems.
    rewrite <- (prepare_dataset_Ok _ _ _ _ Hds) in Hitems.
    apply Forall_forall. intros item Hitem.
    apply list_elem_of_lookup in Hitem as [i Hi].
    destruct (Forall2_lookup_r _ _ _ _ _ Hitems Hi) as (row & _ & _ & Hids & Hmask & _).
    unfold aligned. rewrite Hids, Hmask. apply Htok. }
  assert (Halb : Forall aligned batch).
  { apply Forall_forall. intros f Hf. rewrite Forall_forall in Hal. by apply Hal, Hsub. }
  destruct (call_Ok (CustomDataCollator_init processor) batch Hne Halb)
    as (m & Ms & Hmax & Hclip & Hsh & Hcall).
  { unfold CustomDataCollator_init, default_target_length. cbn [target_length]. lia. }
  eexists _, m. split; [exact Hcall|]. split; [done|].
  cbn [batch_labels batch_input_ids batch_attention_mask].
  apply Forall2_length in Hclip. rewrite length_map in Hclip.
  split; [|split].
  - split; [by rewrite length_map|].
    apply Forall_forall. intros M' HM'.
    apply list_elem_of_fmap in HM' as (M & -> & HM).
    rewrite Forall_forall in Hsh. apply has_shape2_map. by apply (Hsh M).
  - split; [by rewrite length_map|]. apply padded_ids_rect, Hmax.
  - split; [by rewrite length_map|]. by apply padded_mask_rect; [apply Hmax|].
Qed.

Lemma prepare_step_printed dataset_dir processor st row :
  (prepare_step dataset_dir processor st row).2 = st.2 ++ row_lines dataset_dir row.
Proof.
  unfold prepare_step, row_lines. destruct st as [processed_data out].
  by destruct (load_audio _ _ _) as [audio printed].
Qed.

Lemma foldl_prepare_step_printed dataset_dir processor df st :
  (foldl (prepare_step dataset_dir processor) st df).2 =
  st.2 ++ concat (map (row_lines dataset_dir) df).
Proof.
  revert st. induction df as [|row df IH]; intros st; simpl.
  - by rewrite app_nil_r.
  - by rewrite IH, prepare_step_printed, <- app_assoc.
Qed.

Lemma row_lines_diagnostics dataset_dir row :
  length (filter (fun line => is_diagnostic line = true) (row_lines dataset_dir row)) =
  match (load_audio (Audio_Path row) dataset_dir default_max_duration).1 with
  | Some _ => 0
  | None => 1
  end.
Proof.
  unfold row_lines. rewrite filter_app, length_app.
  assert (Hprog : filter (fun line => is_diagnostic line = true)
            (if (row_index row mod 100 =? 0)%Z then [ProcessedFiles (row_index row)] else [])
            = []) by by destruct (_ =? _)%Z.
  rewrite Hprog. unfold load_audio.
  destruct (os_path_exists _); cbn [negb]; [|done].
  destruct (librosa_load _ _ _) as [[speech_array rate]|e]; [|done].
  by destruct (0 <? length speech_array).
Qed.

(** X11.  What [prepare_dataset] prints: the opening line; then, row by
    row, the one diagnostic line of [load_audio] when the audio did not
    load and the progress line when the index of the row is a multiple of
    100, whether the row was loaded or not; and the closing count only when
    a dataset is returned.  There are as many diagnostic lines as rows
    skipped. *)
Theorem prepare_dataset_printed (df : list Row) (dataset_dir : string)
    (processor : Processor) :
  let run := prepare_dataset df dataset_dir processor in
  run.2 = [ProcessingAudioFiles] ++ concat (map (row_lines dataset_dir) df) ++
          match run.1 with
          | Ok ds => [SuccessfullyProcessed (length ds)]
          | Raise _ => []
          end /\
  length (filter (fun line => is_diagnostic line = true) run.2) +
  length (filter (fun row =>
    is_Some (load_audio (Audio_Path row) dataset_dir default_max_duration).1) df)
  = length df.
Proof.
  cbv zeta.
  assert (Hlog : (prepare_dataset df dataset_dir processor).2 =
    [ProcessingAudioFiles] ++ concat (map (row_lines dataset_dir) df) ++
    match (prepare_dataset df dataset_dir processor).1 with
    | Ok ds => [SuccessfullyProcessed (length ds)]
    | Raise _ => []
    end).
  { unfold prepare_dataset.
    pose proof (foldl_prepare_step_printed dataset_dir processor df
                  ([], [ProcessingAudioFiles])) as Hp.
    destruct (foldl _ _ df) as [processed_data out]. cbn [fst snd] in *. subst out.
    destruct processed_data; cbn [fst snd]; [by rewrite app_nil_r|].
    by rewrite <- app_assoc. }
  split; [exact Hlog|]. rewrite Hlog. rewrite !filter_app, !length_app.
  assert (Hlast : filter (fun line => is_diagnostic line = true)
            match (prepare_dataset df dataset_dir processor).1 with
            | Ok ds => [SuccessfullyProcessed (length ds)]
            | Raise _ => []
            end = []) by by destruct (prepare_dataset _ _ _).1.
  rewrite Hlast. cbn [length filter]. rewrite filter_cons_False by done.
  cbn [length]. rewrite Nat.add_0_r. clear Hlog Hlast.
  induction df as [|row df IH]; [done|].
  cbn [map concat]. rewrite filter_app, length_app, row_lines_diagnostics, filter_cons.
  destruct (load_audio (Audio_Path row) dataset_dir default_max_duration).1 as [audio|].
  - rewrite decide_True by eauto. cbn [length]. lia.
  - rewrite decide_False by (by intros [? ?]). cbn [length]. lia.
Qed.

End DatasetMore.

Section DatasetComposition.
Context {Num : Numeric} {W : World}.

Lemma prepare_dataset_items df dataset_dir processor :
  match (prepare_dataset df dataset_dir processor).1 with
  | Ok ds => ds
  | Raise _ => []
  end = omap (item_of_row dataset_dir processor) df.
Proof. rewrite prepare_dataset_data. by destruct (omap _ df). Qed.

(** X12.  The index labels of the table only drive the progress lines: two
    tables with the same audio paths and texts, row by row, give the same
    dataset (or the same exception), whatever their indices. *)
Theorem dataset_ignores_row_index (df df' : list Row) (dataset_dir : string)
    (processor : Processor) :
  Forall2 (fun row row' => Audio_Path row = Audio_Path row' /\ Text row = Text row') df df' ->
  (prepare_dataset df dataset_dir processor).1 =
  (prepare_dataset df' dataset_dir processor).1.
Proof.
  intros Hrows. rewrite !prepare_dataset_data.
  replace (omap (item_of_row dataset_dir processor) df')
    with (omap (item_of_row dataset_dir processor) df); [done|].
  induction Hrows as [|row row' df df' [Hpath Htext] _ IH]; [done|].
  assert (Hitem : item_of_row dataset_dir processor row =
                  item_of_row dataset_dir processor row')
    by (unfold item_of_row; by rewrite Hpath, Htext).
  cbn [omap list_omap]. by rewrite Hitem, IH.
Qed.

(** X13.  Rows are processed one by one: the items obtained from a table
    that is the concatenation of two are the items of the first followed by
    the items of the second (a table that gives no item raises). *)
Theorem dataset_of_concatenation (df1 df2 : list Row) (dataset_dir : string)
    (processor : Processor) :
  let items df :=
    match (prepare_dataset df dataset_dir processor).1 with
    | Ok ds => ds
    | Raise _ => []
    end in
  items (df1 ++ df2) = items df1 ++ items df2.
Proof.
  cbv beta zeta.
  rewrite (prepare_dataset_items (df1 ++ df2)), (prepare_dataset_items df1),
    (prepare_dataset_items df2).
  apply omap_app.
Qed.

End DatasetComposition.

(** ** The further properties at the small instance *)

Lemma shapes_for_any_target_length_witness :
  Demo.features <> [] /\ Forall aligned Demo.features /\
  0 < target_length Demo.small_collator /\
  exists out, call Demo.small_collator Demo.features = Ok out /\
              has_shape3 2 1 80 (batch_labels out).
Proof.
  assert (Hne : Demo.features <> []) by discriminate.
  assert (Hal : Forall aligned Demo.features) by (repeat constructor).
  assert (HT : 0 < target_length Demo.small_collator) by (cbn; lia).
  split; [exact Hne|]. split; [exact Hal|]. split; [exact HT|].
  destruct (shapes_for_any_target_length Demo.small_collator Demo.features Hne Hal HT)
    as (out & max_len & Hout & _ & Hsh & _).
  exists out. split; [exact Hout|exact Hsh].
Defined.

Lemma zero_row_padding_is_dead_witness :
  0 < 3 /\
  exists y D, fit_audio 3 (Demo.samples [1; 2]%Z) = Ok y /\
              log_mel y = Ok D /\ length D = 3 + 1.
Proof.
  assert (HT : 0 < 3) by lia. split; [exact HT|].
  destruct (zero_row_padding_is_dead 3 (Demo.samples [1; 2]%Z) HT)
    as (y & D & Hy & _ & HD & Hlen & _).
  exists y, D. split; [exact Hy|]. split; [exact HD|exact Hlen].
Defined.

Lemma target_length_zero_always_raises_witness :
  target_length {| processor := Demo.the_processor; target_length := 0 |} = 0 /\
  exists e, call {| processor := Demo.the_processor; target_length := 0 |} Demo.features
            = Raise e.
Proof.
  split; [reflexivity|].
  exact (target_length_zero_always_raises
           {| processor := Demo.the_processor; target_length := 0 |} Demo.features eq_refl).
Defined.

Lemma is_max_length_demo : is_max_length Demo.features 4.
Proof.
  split.
  - intros f Hf. repeat (apply elem_of_cons in Hf as [->|Hf]); cbn; try lia.
    by apply elem_of_nil in Hf.
  - eexists. split; [left|]. reflexivity.
Defined.

Lemma call_returns_iff_masks_rectangular_witness :
  0 < target_length Demo.small_collator /\ Demo.features <> [] /\
  is_max_length Demo.features 4 /\
  ((exists out, call Demo.small_collator Demo.features = Ok out) <->
   exists c, Forall (fun f =>
     length (attention_mask f) + (4 - length (input_ids f)) = c) Demo.features).
Proof.
  assert (HT : 0 < target_length Demo.small_collator) by (cbn; lia).
  assert (Hne : Demo.features <> []) by discriminate.
  split; [exact HT|]. split; [exact Hne|]. split; [exact is_max_length_demo|].
  exact (proj1 (call_returns_iff_masks_rectangular Demo.small_collator Demo.features 4
                  HT Hne is_max_length_demo)).
Defined.

Lemma same_for_collator_demo :
  Forall2 (same_for_collator (target_length Demo.small_collator))
          Demo.features Demo.features_with_silence.
Proof.
  repeat constructor; vm_compute; reflexivity.
Defined.

Lemma spectrogram_independent_of_batch_witness :
  0 < target_length Demo.small_collator /\
  exists out out' rows,
    call Demo.small_collator Demo.features = Ok out /\
    call Demo.small_collator (rev Demo.features_with_silence) = Ok out' /\
    batch_labels out !! 0 = Some rows /\ batch_labels out' !! 1 = Some rows.
Proof.
  assert (HT : 0 < target_length Demo.small_collator) by (cbn; lia).
  split; [exact HT|].
  destruct (call_Ok Demo.small_collator Demo.features) as (m & Ms & _ & _ & _ & Hout);
    [discriminate|repeat constructor|exact HT|].
  destruct (call_Ok Demo.small_collator (rev Demo.features_with_silence))
    as (m' & Ms' & _ & _ & _ & Hout');
    [discriminate|repeat constructor|exact HT|].
  destruct (spectrogram_independent_of_batch Demo.small_collator _ _ _ _ 0 1 _ _
              HT Hout Hout' eq_refl eq_refl) as (rows & Hrows & Hrows').
  { vm_compute. reflexivity. }
  eexists _, _, rows. split; [exact Hout|]. split; [exact Hout'|].
  split; [exact Hrows|exact Hrows'].
Defined.

Lemma call_reads_only_within_budget_witness :
  Forall2 (same_for_collator (target_length Demo.small_collator))
          Demo.features Demo.features_with_silence /\
  call Demo.small_collator Demo.features =
  call Demo.small_collator Demo.features_with_silence.
Proof.
  split; [exact same_for_collator_demo|].
  exact (proj1 (call_reads_only_within_budget Demo.small_collator _ _
                  same_for_collator_demo)).
Defined.

Lemma tokens_recovered_from_mask_witness :
  Demo.features <> [] /\ 0 < target_length Demo.small_collator /\
  Forall (fun f => attention_mask f = replicate (length (input_ids f)) 1%Z) Demo.features /\
  exists out ids_row mask_row,
    call Demo.small_collator Demo.features = Ok out /\
    batch_input_ids out !! 1 = Some ids_row /\
    batch_attention_mask out !! 1 = Some mask_row /\
    take (length (filter (fun b : Z => b = 1%Z) mask_row)) ids_row = [4; 7; 2]%Z.
Proof.
  assert (Hne : Demo.features <> []) by discriminate.
  assert (HT : 0 < target_length Demo.small_collator) by (cbn; lia).
  assert (Hones : Forall (fun f => attention_mask f = replicate (length (input_ids f)) 1%Z)
                    Demo.features) by (repeat constructor).
  split; [exact Hne|]. split; [exact HT|]. split; [exact Hones|].
  destruct (tokens_recovered_from_mask Demo.small_collator Demo.features Hne HT Hones)
    as (out & max_len & Hout & Hrows).
  destruct (Hrows 1 _ eq_refl) as (ids_row & mask_row & Hids & Hmask & _ & Htake).
  exists out, ids_row, mask_row. split; [exact Hout|]. split; [exact Hids|].
  split; [exact Hmask|exact Htake].
Defined.

Lemma equal_lengths_need_no_padding_witness :
  take 1 Demo.features <> [] /\ 0 < target_length Demo.small_collator /\
  Forall (fun f => length (input_ids f) = 4 /\ length (attention_mask f) = 4)
         (take 1 Demo.features) /\
  exists out,
    call Demo.small_collator (take 1 Demo.features) = Ok out /\
    batch_input_ids out = [[4; 20; 21; 2]]%Z.
Proof.
  assert (Hne : take 1 Demo.features <> []) by discriminate.
  assert (HT : 0 < target_length Demo.small_collator) by (cbn; lia).
  assert (Hlen : Forall (fun f => length (input_ids f) = 4 /\ length (attention_mask f) = 4)
                   (take 1 Demo.features)) by (repeat constructor).
  split; [exact Hne|]. split; [exact HT|]. split; [exact Hlen|].
  destruct (equal_lengths_need_no_padding Demo.small_collator _ 4 Hne HT Hlen)
    as (out & Hout & Hids & _).
  exists out. split; [exact Hout|exact Hids].
Defined.

Lemma demo_dataset :
  (prepare_dataset (W := Demo.files) Demo.df "dataset" Demo.the_processor).1
  = Ok [ {| input_ids := [4; 5; 2]%Z; attention_mask := [1; 1; 1]%Z;
            labels := Demo.samples [3; -5; 10]%Z; text := "hello" |};
         {| input_ids := [4; 5; 2]%Z; attention_mask := [1; 1; 1]%Z;
            labels := Demo.samples [3; -5; 10]%Z; text := "again" |} ].
Proof. vm_compute. reflexivity. Defined.

Lemma dataset_items_follow_the_table_witness :
  exists ds,
    (prepare_dataset (W := Demo.files) Demo.df "dataset" Demo.the_processor).1 = Ok ds /\
    Forall2 (fun row item => text item = Text row)
      (filter (fun row => is_Some
         (load_audio (W := Demo.files) (Audio_Path row) "dataset" default_max_duration).1)
         Demo.df)
      ds.
Proof.
  eexists. split; [exact demo_dataset|].
  eapply Forall2_impl;
    [exact (dataset_items_follow_the_table (W := Demo.files) _ _ _ _ demo_dataset)|].
  intros row item [Htext _]. exact Htext.
Defined.

Lemma dataset_batches_collate_witness :
  (forall txt n,
     length (enc_attention_mask (processor_call (World := Demo.files) Demo.the_processor txt n))
     = length (enc_input_ids (processor_call (World := Demo.files) Demo.the_processor txt n))) /\
  exists ds out,
    (prepare_dataset (W := Demo.files) Demo.df "dataset" Demo.the_processor).1 = Ok ds /\
    call (CustomDataCollator_init Demo.the_processor) ds = Ok out /\
    has_shape3 (length ds) 512 80 (batch_labels out).
Proof.
  assert (Htok : forall txt n,
     length (enc_attention_mask (processor_call (World := Demo.files) Demo.the_processor txt n))
     = length (enc_input_ids (processor_call (World := Demo.files) Demo.the_processor txt n)))
    by (intros txt n; reflexivity).
  split; [exact Htok|].
  assert (Hne : [ {| input_ids := [4; 5; 2]%Z; attention_mask := [1; 1; 1]%Z;
                     labels := Demo.samples [3; -5; 10]%Z; text := "hello" |};
                  {| input_ids := [4; 5; 2]%Z; attention_mask := [1; 1; 1]%Z;
                     labels := Demo.samples [3; -5; 10]%Z; text := "again" |} ] <> [])
    by discriminate.
  destruct (dataset_batches_collate (W := Demo.files) Demo.df "dataset" Demo.the_processor
              _ _ Htok demo_dataset Hne (fun f Hf => Hf))
    as (out & max_len & Hout & _ & Hsh & _).
  eexists _, out. split; [exact demo_dataset|]. split; [exact Hout|exact Hsh].
Defined.

Lemma dataset_ignores_row_index_witness :
  Forall2 (fun row row' => Audio_Path row = Audio_Path row' /\ Text row = Text row')
    [ {| row_index := 0; Audio_Path := "wavs/a.wav"; Text := "hello" |} ]
    [ {| row_index := 7; Audio_Path := "wavs/a.wav"; Text := "hello" |} ] /\
  (prepare_dataset (W := Demo.files)
     [ {| row_index := 0; Audio_Path := "wavs/a.wav"; Text := "hello" |} ]
     "dataset" Demo.the_processor).1 =
  (prepare_dataset (W := Demo.files)
     [ {| row_index := 7; Audio_Path := "wavs/a.wav"; Text := "hello" |} ]
     "dataset" Demo.the_processor).1.
Proof.
  assert (Hrows : Forall2 (fun row row' =>
            Audio_Path row = Audio_Path row' /\ Text row = Text row')
    [ {| row_index := 0; Audio_Path := "wavs/a.wav"; Text := "hello" |} ]
    [ {| row_index := 7; Audio_Path := "wavs/a.wav"; Text := "hello" |} ])
    by (repeat constructor).
  split; [exact Hrows|].
  exact (dataset_ignores_row_index (W := Demo.files) _ _ "dataset" Demo.the_processor Hrows).
Defined.
